(** * A shallow embedding of the stock trading engine (engine.cpp)

    The engine keeps, for each of [NUM_TICKERS] tickers, two fixed arrays of
    [MAX_ORDERS_PER_SIDE] order pointers and two atomic counters.  [addOrder]
    claims a slot with a fetch-and-add and publishes a freshly allocated
    order; [matchOrdersForTicker] repeatedly scans both arrays for the best
    buy and the best sell and crosses them.

    Modelling choices:
    - machine integers are [Z] with the wrap-around of their C++ type
      written out ([int], [uint32_t], [uint64_t]);
    - [double] prices are IEEE 754 binary64 values, [spec_float], compared
      with [SFltb];
    - an array of [Order*] is a [list (option Order)]: [None] is [nullptr].
      Every [Order] is allocated by [addOrder] and referenced by exactly one
      slot, so a pointer to an order is the index of its slot;
    - indexing an array outside its extent is undefined behaviour and is
      reported as [OutOfBounds];
    - [cout] is the list of trades printed, in order;
    - the code is read sequentially (one matching activity, no submission
      while a pass runs). *)

From Stdlib Require Import ZArith Lia Bool NArith.
From Stdlib Require Import SpecFloat.
From stdpp Require Import base option list.

Open Scope Z_scope.

(** * The model *)

(** ** Machine arithmetic *)

Definition wrap_uint32 (z : Z) : Z := z mod 2 ^ 32.
Definition wrap_uint64 (z : Z) : Z := z mod 2 ^ 64.
(** two's complement [int], as [atomic<int>::fetch_add] is defined to wrap *)
Definition wrap_int (z : Z) : Z := (z + 2 ^ 31) mod 2 ^ 32 - 2 ^ 31.

Definition is_uint32 (z : Z) : Prop := 0 <= z < 2 ^ 32.

(** ** Doubles *)

Abbreviation double := spec_float.

(** the binary64 value of an integer literal *)
Definition double_of_Z (z : Z) : double := binary_normalize 53 1024 z 0 false.

(** ** Outcomes *)

Inductive result (A : Type) : Type :=
| Ok (a : A)
| OutOfBounds
| OutOfFuel.
Arguments Ok {A} a.
Arguments OutOfBounds {A}.
Arguments OutOfFuel {A}.

Definition bind {A B} (r : result A) (k : A -> result B) : result B :=
  match r with
  | Ok a => k a
  | OutOfBounds => OutOfBounds
  | OutOfFuel => OutOfFuel
  end.

Notation "'let*' x := r 'in' k" := (bind r (fun x => k))
  (at level 10, x name, r at level 100, k at level 200).

(** [a[i]] and [a[i] = x] on a fixed-size array *)
Definition array_get {A} (a : list A) (i : Z) : result A :=
  if 0 <=? i then
    match a !! Z.to_nat i with
    | Some x => Ok x
    | None => OutOfBounds
    end
  else OutOfBounds.

Definition array_set {A} (a : list A) (i : Z) (x : A) : result (list A) :=
  if (0 <=? i) && (i <? Z.of_nat (length a)) then Ok (<[Z.to_nat i := x]> a)
  else OutOfBounds.

(** ** Data model *)

Definition MAX_ORDERS_PER_SIDE : Z := 1024.
Definition NUM_TICKERS : Z := 1024.

Record Order := mkOrder {
  isBuy : bool;
  tickerIndex : Z;     (* uint32_t *)
  quantity : Z;        (* atomic<uint32_t>, the remaining quantity *)
  price : double;
  timestamp : Z        (* uint64_t *)
}.

(** [Order(bool type, uint32_t index, uint32_t quant, double p, uint32_t time)]:
    the constructor receives the time stamp as a [uint32_t]. *)
Definition newOrder (type : bool) (index quant : Z) (p : double) (time : Z) : Order :=
  {| isBuy := type; tickerIndex := index; quantity := quant; price := p;
     timestamp := wrap_uint32 time |}.

Definition with_quantity (o : Order) (q : Z) : Order :=
  {| isBuy := isBuy o; tickerIndex := tickerIndex o; quantity := q;
     price := price o; timestamp := timestamp o |}.

Record TickerOrderBook := mkBook {
  buyOrders : list (option Order);
  sellOrders : list (option Order);
  buyCount : Z;        (* atomic<int> *)
  sellCount : Z        (* atomic<int> *)
}.

Definition emptyBook : TickerOrderBook :=
  {| buyOrders := replicate (Z.to_nat MAX_ORDERS_PER_SIDE) None;
     sellOrders := replicate (Z.to_nat MAX_ORDERS_PER_SIDE) None;
     buyCount := 0; sellCount := 0 |}.

Record Engine := mkEngine {
  globalTimestamp : Z;               (* atomic<uint64_t> *)
  tickers : list TickerOrderBook     (* TickerOrderBook tickers[NUM_TICKERS] *)
}.

Definition initial : Engine :=
  {| globalTimestamp := 0;
     tickers := replicate (Z.to_nat NUM_TICKERS) emptyBook |}.

Record Trade := mkTrade {
  trade_ticker : Z;
  trade_quantity : Z;
  trade_price : double
}.

(** ** addOrder *)

(** The part of [addOrder] that works on [tickers[tickerSymbol]]. *)
Definition addOrderBook (isBuy : bool) (tickerSymbol quantity : Z) (price : double)
    (timestamp : Z) (book : TickerOrderBook) : result TickerOrderBook :=
  if isBuy then
    let index := buyCount book in
    let count := wrap_int (index + 1) in
    if index <? MAX_ORDERS_PER_SIDE then
      let* slots := array_set (buyOrders book) index
                  (Some (newOrder isBuy tickerSymbol quantity price timestamp)) in
      Ok {| buyOrders := slots; sellOrders := sellOrders book;
            buyCount := count; sellCount := sellCount book |}
    else
      Ok {| buyOrders := buyOrders book; sellOrders := sellOrders book;
            buyCount := count; sellCount := sellCount book |}
  else
    let index := sellCount book in
    let count := wrap_int (index + 1) in
    if index <? MAX_ORDERS_PER_SIDE then
      let* slots := array_set (sellOrders book) index
                  (Some (newOrder isBuy tickerSymbol quantity price timestamp)) in
      Ok {| buyOrders := buyOrders book; sellOrders := slots;
            buyCount := buyCount book; sellCount := count |}
    else
      Ok {| buyOrders := buyOrders book; sellOrders := sellOrders book;
            buyCount := buyCount book; sellCount := count |}.

Definition addOrder (isBuy : bool) (tickerSymbol quantity : Z) (price : double)
    (s : Engine) : result Engine :=
  let timestamp := globalTimestamp s in
  let next := wrap_uint64 (timestamp + 1) in
  if NUM_TICKERS <=? tickerSymbol then
    Ok {| globalTimestamp := next; tickers := tickers s |}
  else
    let* book := array_get (tickers s) tickerSymbol in
    let* book' := addOrderBook isBuy tickerSymbol quantity price timestamp book in
    Ok {| globalTimestamp := next;
          tickers := <[Z.to_nat tickerSymbol := book']> (tickers s) |}.

(** ** matchOrdersForTicker *)

(** One scan loop, [for (int i = 0; i < count; i++)], with [n] iterations
    left.  [better p best] is the price test of the loop: [p > best] for
    buys and [p < best] for sells.  The result is the selected pointer. *)
Fixpoint scan (better : double -> double -> bool) (orders : list (option Order))
    (n : nat) (i : nat) (best : option nat) (bestPrice : double)
    : result (option nat) :=
  match n with
  | O => Ok best
  | S n' =>
      match orders !! i with
      | None => OutOfBounds
      | Some o =>
          match o with
          | Some ord =>
              if (0 <? quantity ord) && better (price ord) bestPrice
              then scan better orders n' (S i) (Some i) (price ord)
              else scan better orders n' (S i) best bestPrice
          | None => scan better orders n' (S i) best bestPrice
          end
      end
  end.

Definition highestBuyPrice0 : double := double_of_Z (-1).
Definition lowestSellPrice0 : double := double_of_Z 1000000000.

Definition scanBuy (book : TickerOrderBook) : result (option nat) :=
  scan (fun p best => SFltb best p) (buyOrders book)
       (Z.to_nat (buyCount book)) 0 None highestBuyPrice0.

Definition scanSell (book : TickerOrderBook) : result (option nat) :=
  scan (fun p best => SFltb p best) (sellOrders book)
       (Z.to_nat (sellCount book)) 0 None lowestSellPrice0.

(** One turn of the [while (true)] loop: [Ok None] is the [break]. *)
Definition matchIteration (tickerIndex : Z) (book : TickerOrderBook)
    : result (option (TickerOrderBook * Trade)) :=
  let* bestBuy := scanBuy book in
  let* bestSell := scanSell book in
  match bestBuy, bestSell with
  | Some bi, Some si =>
      match buyOrders book !! bi, sellOrders book !! si with
      | Some (Some b), Some (Some s) =>
          if SFltb (price b) (price s) then Ok None
          else
            let buyQty := quantity b in
            let sellQty := quantity s in
            let matchQty := if buyQty <? sellQty then buyQty else sellQty in
            let b' := with_quantity b (wrap_uint32 (buyQty - matchQty)) in
            let s' := with_quantity s (wrap_uint32 (sellQty - matchQty)) in
            Ok (Some ({| buyOrders := <[bi := Some b']> (buyOrders book);
                         sellOrders := <[si := Some s']> (sellOrders book);
                         buyCount := buyCount book;
                         sellCount := sellCount book |},
                      {| trade_ticker := tickerIndex;
                         trade_quantity := matchQty;
                         trade_price := price s |}))
      | _, _ => OutOfBounds
      end
  | _, _ => Ok None
  end.

Fixpoint matchLoop (fuel : nat) (tickerIndex : Z) (book : TickerOrderBook)
    : result (TickerOrderBook * list Trade) :=
  match fuel with
  | O => OutOfFuel
  | S fuel' =>
      let* r := matchIteration tickerIndex book in
      match r with
      | None => Ok (book, [])
      | Some (book', t) =>
          let* rest := matchLoop fuel' tickerIndex book' in
          Ok (fst rest, t :: snd rest)
      end
  end.

Definition matchOrdersForTicker (fuel : nat) (tickerIndex : Z) (s : Engine)
    : result (Engine * list Trade) :=
  let* book := array_get (tickers s) tickerIndex in
  let* fin := matchLoop fuel tickerIndex book in
  Ok ({| globalTimestamp := globalTimestamp s;
         tickers := <[Z.to_nat tickerIndex := fst fin]> (tickers s) |},
      snd fin).

(** ** matchOrder *)

(** [for (uint16_t ticker = 0; ticker < NUM_TICKERS; ticker++)], with [n]
    tickers left; the trades of the passes are printed one after the other. *)
Fixpoint matchOrderFrom (n : nat) (ticker : Z) (fuel : nat) (s : Engine)
    : result (Engine * list Trade) :=
  match n with
  | O => Ok (s, [])
  | S n' =>
      let* x := matchOrdersForTicker fuel ticker s in
      let* y := matchOrderFrom n' (ticker + 1) fuel (fst x) in
      Ok (fst y, snd x ++ snd y)
  end.

Definition matchOrder (fuel : nat) (s : Engine) : result (Engine * list Trade) :=
  matchOrderFrom (Z.to_nat NUM_TICKERS) 0 fuel s.

(** ** The driver: sequences of calls *)

Inductive Op :=
| Submit (isBuy : bool) (tickerSymbol quantity : Z) (price : double)
| MatchPass (fuel : nat) (tickerIndex : Z).

Definition step (op : Op) (s : Engine) : result (Engine * list Trade) :=
  match op with
  | Submit b t q p => let* s' := addOrder b t q p s in Ok (s', [])
  | MatchPass fuel t => matchOrdersForTicker fuel t s
  end.

Fixpoint run (ops : list Op) (s : Engine) : result (Engine * list Trade) :=
  match ops with
  | [] => Ok (s, [])
  | op :: rest =>
      let* x := step op s in
      let* y := run rest (fst x) in
      Ok (fst y, snd x ++ snd y)
  end.

(** [n] calls of [addOrder] with the same arguments *)
Definition submitMany (n : N) (isBuy : bool) (tickerSymbol quantity : Z)
    (price : double) (s : Engine) : result Engine :=
  N.iter n (fun r => let* s := r in addOrder isBuy tickerSymbol quantity price s)
         (Ok s).

(** the value of a run that succeeded *)
Definition outcome {A} (d : A) (r : result A) : A :=
  match r with
  | Ok a => a
  | _ => d
  end.

(** * The vocabulary of the properties *)

(** ** The order on doubles *)

(** The position of a double on the extended real line: its class
    (infinities, finite of either sign, zero), then exponent and mantissa.
    NaN has none. *)
Definition rank (x : spec_float) : option (Z * Z * Z) :=
  match x with
  | S754_nan => None
  | S754_zero _ => Some (0, 0, 0)
  | S754_infinity s => Some (if s then -2 else 2, 0, 0)
  | S754_finite s m e =>
      Some (if s then (-1, - e, - Z.pos m) else (1, e, Z.pos m))
  end.

Definition rank_lt (a b : Z * Z * Z) : Prop :=
  a.1.1 < b.1.1 \/
  (a.1.1 = b.1.1 /\ (a.1.2 < b.1.2 \/ (a.1.2 = b.1.2 /\ a.2 < b.2))).

Definition rank_le (a b : Z * Z * Z) : Prop :=
  a.1.1 < b.1.1 \/
  (a.1.1 = b.1.1 /\ (a.1.2 < b.1.2 \/ (a.1.2 = b.1.2 /\ a.2 <= b.2))).

(** ** Orders and slots *)

(** slot [j] holds an order that can still trade *)
Definition eligible (orders : list (option Order)) (j : nat) (o : Order) : Prop :=
  orders !! j = Some (Some o) /\ 0 < quantity o.

(** The invariant of a scan loop after the slots below [i] have been read.
    [R p q] says that price [p] is strictly better than [q], [Rle] is its
    reflexive version and [p0] the price the scan starts from. *)
Record scan_inv (R Rle : double -> double -> bool)
    (orders : list (option Order)) (p0 : double)
    (i : nat) (best : option nat) (bp : double) : Prop := {
  inv_none : best = None -> bp = p0;
  inv_best : forall k, best = Some k ->
    (k < i)%nat /\
    exists o, eligible orders k o /\ price o = bp /\ R bp p0 = true /\
      forall j oj, (j < k)%nat -> eligible orders j oj ->
                   Rle (price oj) bp = false;
  inv_seen : forall j oj, (j < i)%nat -> eligible orders j oj ->
                          R (price oj) bp = false
}.

Definition crossed (tickerIndex : Z) (book : TickerOrderBook)
    (bi si : nat) (b s : Order) : TickerOrderBook * Trade :=
  let matchQty := if quantity b <? quantity s then quantity b else quantity s in
  ({| buyOrders :=
        <[bi := Some (with_quantity b (wrap_uint32 (quantity b - matchQty)))]>
          (buyOrders book);
      sellOrders :=
        <[si := Some (with_quantity s (wrap_uint32 (quantity s - matchQty)))]>
          (sellOrders book);
      buyCount := buyCount book;
      sellCount := sellCount book |},
   {| trade_ticker := tickerIndex; trade_quantity := matchQty;
      trade_price := price s |}).

Definition uint32_order (o : option Order) : bool :=
  match o with
  | Some ord => (0 <=? quantity ord) && (quantity ord <? 2 ^ 32)
  | None => true
  end.

Definition uint32_book (book : TickerOrderBook) : bool :=
  forallb uint32_order (buyOrders book) && forallb uint32_order (sellOrders book).

Definition live (o : option Order) : bool :=
  match o with
  | Some ord => 0 <? quantity ord
  | None => false
  end.

Fixpoint liveCount (orders : list (option Order)) : nat :=
  match orders with
  | [] => 0
  | o :: rest => ((if live o then 1 else 0) + liveCount rest)%nat
  end.

(** the number of orders of a book that can still trade *)
Definition eligibleOrders (book : TickerOrderBook) : nat :=
  (liveCount (buyOrders book) + liveCount (sellOrders book))%nat.

(** the counters do not run past the arrays *)
Definition in_bounds (book : TickerOrderBook) : bool :=
  (buyCount book <=? Z.of_nat (length (buyOrders book))) &&
  (sellCount book <=? Z.of_nat (length (sellOrders book))).

Definition side_orders (buy : bool) (book : TickerOrderBook) : list (option Order) :=
  if buy then buyOrders book else sellOrders book.

(** the order held by slot [k] of one side of ticker [t] *)
Definition order_at (s : Engine) (t : nat) (buy : bool) (k : nat) : option Order :=
  match tickers s !! t with
  | Some book =>
      match side_orders buy book !! k with
      | Some o => o
      | None => None
      end
  | None => None
  end.

(** Slots at and above the counter have not been claimed yet. *)
Definition is_null (o : option Order) : bool :=
  match o with
  | None => true
  | Some _ => false
  end.

Definition fresh_slots (count : Z) (orders : list (option Order)) : bool :=
  (count <? 0) ||
  ((count <? 2 ^ 31) && forallb is_null (drop (Z.to_nat count) orders)).

Definition fresh_book (book : TickerOrderBook) : bool :=
  fresh_slots (buyCount book) (buyOrders book) &&
  fresh_slots (sellCount book) (sellOrders book).

Definition fresh_engine (s : Engine) : bool := forallb fresh_book (tickers s).

(** [o'] is [o] with some of its quantity filled *)
Definition filled (o o' : Order) : Prop :=
  o' = with_quantity o (quantity o') /\ 0 <= quantity o' <= quantity o.

(** ** Sides, counters and totals *)

Definition side_count (buy : bool) (book : TickerOrderBook) : Z :=
  if buy then buyCount book else sellCount book.

(** [book] with the array and the counter of one side replaced *)
Definition with_side (buy : bool) (orders : list (option Order)) (count : Z)
    (book : TickerOrderBook) : TickerOrderBook :=
  if buy then
    {| buyOrders := orders; sellOrders := sellOrders book;
       buyCount := count; sellCount := sellCount book |}
  else
    {| buyOrders := buyOrders book; sellOrders := orders;
       buyCount := buyCount book; sellCount := count |}.

(** the number of [addOrder] calls of a sequence *)
Fixpoint submissions (ops : list Op) : nat :=
  match ops with
  | [] => 0
  | Submit _ _ _ _ :: rest => S (submissions rest)
  | MatchPass _ _ :: rest => submissions rest
  end.

(** the ticker an operation works on *)
Definition op_ticker (op : Op) : Z :=
  match op with
  | Submit _ t _ _ => t
  | MatchPass _ t => t
  end.

(** the quantity still open on one side *)
Fixpoint totalQuantity (orders : list (option Order)) : Z :=
  match orders with
  | [] => 0
  | Some o :: rest => quantity o + totalQuantity rest
  | None :: rest => totalQuantity rest
  end.

(** the quantity reported by a list of trades *)
Fixpoint tradedQuantity (trades : list Trade) : Z :=
  match trades with
  | [] => 0
  | tr :: rest => trade_quantity tr + tradedQuantity rest
  end.

(** ** Invariants of reachable engines *)

(** every stored order sits on its own side of the book of its own ticker *)
Definition placed (t : Z) (book : TickerOrderBook) : Prop :=
  forall side k o,
    side_orders side book !! k = Some (Some o) ->
    isBuy o = side /\ tickerIndex o = t.

(** the arrays have the extent the declaration gives them *)
Definition book_shape (book : TickerOrderBook) : Prop :=
  length (buyOrders book) = Z.to_nat MAX_ORDERS_PER_SIDE /\
  length (sellOrders book) = Z.to_nat MAX_ORDERS_PER_SIDE.

(** ** Concrete runs *)

Definition scenarioC (fuel : nat) : result (Engine * list Trade) :=
  let* s1 := addOrder true 3 30 (double_of_Z 100) initial in
  let* s2 := addOrder false 3 10 (double_of_Z 90) s1 in
  let* s3 := addOrder false 3 10 (double_of_Z 95) s2 in
  matchOrdersForTicker fuel 3 s3.

(** the book of scenario C before the pass *)
Definition scenarioC_before : TickerOrderBook :=
  {| buyOrders :=
       Some (mkOrder true 3 30 (double_of_Z 100) 0) :: replicate 1023 None;
     sellOrders :=
       Some (mkOrder false 3 10 (double_of_Z 90) 1)
       :: Some (mkOrder false 3 10 (double_of_Z 95) 2) :: replicate 1022 None;
     buyCount := 1; sellCount := 2 |}.

Definition scenarioC_book : TickerOrderBook :=
  {| buyOrders :=
       Some (mkOrder true 3 10 (double_of_Z 100) 0) :: replicate 1023 None;
     sellOrders :=
       Some (mkOrder false 3 0 (double_of_Z 90) 1)
       :: Some (mkOrder false 3 0 (double_of_Z 95) 2) :: replicate 1022 None;
     buyCount := 1; sellCount := 2 |}.

(** the book of scenario C after the first cross of the pass, 10 @ 90.0 *)
Definition scenarioC_first : TickerOrderBook :=
  {| buyOrders :=
       Some (mkOrder true 3 20 (double_of_Z 100) 0) :: replicate 1023 None;
     sellOrders :=
       Some (mkOrder false 3 0 (double_of_Z 90) 1)
       :: Some (mkOrder false 3 10 (double_of_Z 95) 2) :: replicate 1022 None;
     buyCount := 1; sellCount := 2 |}.

(** the engine of scenario C before the pass *)
Definition scenarioC_engine : Engine :=
  {| globalTimestamp := 3;
     tickers := <[3%nat := scenarioC_before]> (tickers initial) |}.

Definition scenarioC_ops : list Op :=
  [MatchPass 3 3; Submit true 3 5 (double_of_Z 101); MatchPass 3 3].

(** 2^32 - 2 rejected calls, an accepted one, a rejected one, an accepted
    one: the time stamps of the two accepted orders and the counter. *)
Definition truncatedSequence : result (option Z * option Z * Z) :=
  let* s0 := submitMany 4294967294 true 1024 1 (double_of_Z 1) initial in
  let* s1 := addOrder true 0 1 (double_of_Z 1) s0 in
  let* s2 := addOrder true 1024 1 (double_of_Z 1) s1 in
  let* s3 := addOrder true 0 1 (double_of_Z 1) s2 in
  Ok (timestamp <$> order_at s3 0 true 0, timestamp <$> order_at s3 0 true 1,
      globalTimestamp s3).

Definition overfullBook : result Engine :=
  submitMany 1025 true 0 1 (double_of_Z 1) initial.

Definition beyondSentinels (fuel : nat) : result (Engine * list Trade) :=
  let* s1 := addOrder true 0 1 (double_of_Z 3000000000) initial in
  let* s2 := addOrder false 0 1 (double_of_Z 2000000000) s1 in
  matchOrdersForTicker fuel 0 s2.

Definition beyondSentinels_book : TickerOrderBook :=
  {| buyOrders :=
       Some (mkOrder true 0 1 (double_of_Z 3000000000) 0) :: replicate 1023 None;
     sellOrders :=
       Some (mkOrder false 0 1 (double_of_Z 2000000000) 1) :: replicate 1023 None;
     buyCount := 1; sellCount := 1 |}.

Definition highAsk_book : TickerOrderBook :=
  {| buyOrders := replicate 1024 None;
     sellOrders :=
       Some (mkOrder false 0 1 (double_of_Z 2000000000) 0) :: replicate 1023 None;
     buyCount := 0; sellCount := 1 |}.

Definition negativeBid_book : TickerOrderBook :=
  {| buyOrders :=
       Some (mkOrder true 0 1 (double_of_Z (-2)) 0) :: replicate 1023 None;
     sellOrders := replicate 1024 None;
     buyCount := 1; sellCount := 0 |}.

(** an engine whose ticker 0 has all 1024 buy slots taken, and that book *)
Definition fullEngine : Engine :=
  outcome initial (submitMany 1024 true 0 1 (double_of_Z 1) initial).

Definition fullBook : TickerOrderBook :=
  outcome emptyBook (array_get (tickers fullEngine) 0).

(** Scenario B of the specification: Buy(2, 50 @ 10.0) and Sell(2, 80 @ 20.0)
    rest on ticker 2 and do not cross. *)
Definition scenarioB_book : TickerOrderBook :=
  {| buyOrders :=
       Some (mkOrder true 2 50 (double_of_Z 10) 0) :: replicate 1023 None;
     sellOrders :=
       Some (mkOrder false 2 80 (double_of_Z 20) 1) :: replicate 1023 None;
     buyCount := 1; sellCount := 1 |}.

Definition scenarioB_engine : Engine :=
  {| globalTimestamp := 2;
     tickers := <[2%nat := scenarioB_book]> (tickers initial) |}.

(** slot [k] holds an order exactly when [k] is below the counter *)
Definition prefix_filled (count : Z) (orders : list (option Order)) : Prop :=
  forall k, (k < length orders)%nat ->
    (exists o, orders !! k = Some (Some o)) <-> Z.of_nat k < count.

(** the run of scenario C, from the empty engine *)
Definition scenarioC_run : list Op :=
  [ Submit true 3 30 (double_of_Z 100); Submit false 3 10 (double_of_Z 90);
    Submit false 3 10 (double_of_Z 95); MatchPass 3 3 ].

Definition scenarioC_end : Engine :=
  (outcome (initial, []) (run scenarioC_run initial)).1.

(** every book has its 1024 slots per side, and on each side the counter is
    between 0 and the time stamp counter and says which slots are taken *)
Definition counted (s : Engine) : Prop :=
  forall t book, tickers s !! t = Some book ->
    book_shape book /\
    forall side, 0 <= side_count side book <= globalTimestamp s /\
                 prefix_filled (side_count side book) (side_orders side book).

(** the calls [simulateOrders] can make: ticker from [tickerDist(0, 1023)],
    quantity from [qtyDist(1, 1000)], price from [priceDist(10.0, 500.0)] *)
Definition simulated (op : Op) : Prop :=
  match op with
  | Submit _ t q p =>
      0 <= t <= 1023 /\ 1 <= q <= 1000 /\
      SFleb (double_of_Z 10) p = true /\ SFleb p (double_of_Z 500) = true
  | MatchPass _ _ => True
  end.

(** calls with arguments of the parameter types that [matchOrder] and the
    simulation make: a [uint16_t] ticker, and a pass only for a ticker of
    the exchange *)
Definition in_range (op : Op) : Prop :=
  match op with
  | Submit _ t _ _ => 0 <= t
  | MatchPass _ t => 0 <= t < NUM_TICKERS
  end.

(** the two submissions of scenario B *)
Definition scenarioB_run : list Op :=
  [ Submit true 2 50 (double_of_Z 10); Submit false 2 80 (double_of_Z 20) ].

(** every book can be swept with this fuel: its counters are within the
    arrays and its orders that can still trade are fewer than the fuel *)
Definition sweep_ready (fuel : nat) (s : Engine) : bool :=
  forallb (fun book => in_bounds book && (eligibleOrders book <? fuel)%nat)
          (tickers s).

(** the engine of scenario C after a sweep of all tickers *)
Definition scenarioC_swept : Engine :=
  (outcome (initial, []) (matchOrder 4 scenarioC_engine)).1.

(** 1025 buys of 1 at 10.0 on ticker 0, then a sell of 5 at 20.0 on the
    same ticker: the buy counter stands one past the array, and the sell
    is priced above every buy. *)
Definition overfullSell_run : list Op :=
  replicate 1025 (Submit true 0 1 (double_of_Z 10)) ++
  [Submit false 0 5 (double_of_Z 20)].

Definition overfullSell_engine : Engine :=
  (outcome (initial, []) (run overfullSell_run initial)).1.

Definition overfullSell_book : TickerOrderBook :=
  outcome emptyBook (array_get (tickers overfullSell_engine) 0).

(** * Properties *)

(** ** The order on doubles *)

Ltac cmp_cases :=
  repeat match goal with
  | |- context [ Pos.compare_cont Eq ?x ?y ] =>
      change (Pos.compare_cont Eq x y) with (Pos.compare x y);
      destruct (Pos.compare_spec x y)
  | |- context [ Z.compare ?x ?y ] => destruct (Z.compare_spec x y)
  end.

Ltac rank_cases :=
  unfold SFltb, SFleb, SFcompare, rank_lt, rank_le;
  repeat match goal with
  | x : spec_float |- _ => destruct x
  | s : bool |- _ => destruct s
  end;
  simpl; cmp_cases; simpl;
  split; first [ discriminate | intros [?|[? [?|[? ?]]]]; lia
               | intros _; lia | intros _; reflexivity | idtac ].

Lemma SFltb_rank (a b : spec_float) :
  SFltb a b = true <->
  match rank a, rank b with
  | Some ra, Some rb => rank_lt ra rb
  | _, _ => False
  end.
Proof. rank_cases; try tauto. Qed.

Lemma SFleb_rank (a b : spec_float) :
  SFleb a b = true <->
  match rank a, rank b with
  | Some ra, Some rb => rank_le ra rb
  | _, _ => False
  end.
Proof. rank_cases; try tauto. Qed.

Ltac by_rank :=
  rewrite ?SFltb_rank, ?SFleb_rank, <- ?not_true_iff_false, ?SFltb_rank, ?SFleb_rank;
  repeat match goal with
  | |- context [ rank ?x ] => destruct (rank x) as [[[? ?] ?]|]
  end;
  unfold rank_lt, rank_le; simpl; try tauto; lia.

Lemma SFltb_irrefl (a : spec_float) : SFltb a a = false.
Proof. by_rank. Qed.

Lemma SFltb_trans (a b c : spec_float) :
  SFltb a b = true -> SFltb b c = true -> SFltb a c = true.
Proof. by_rank. Qed.

Lemma SFleb_ltb_trans (a b c : spec_float) :
  SFleb a b = true -> SFltb b c = true -> SFltb a c = true.
Proof. by_rank. Qed.

Lemma SFltb_leb_trans (a b c : spec_float) :
  SFltb a b = true -> SFleb b c = true -> SFltb a c = true.
Proof. by_rank. Qed.

Lemma SFleb_trans (a b c : spec_float) :
  SFleb a b = true -> SFleb b c = true -> SFleb a c = true.
Proof. by_rank. Qed.

Lemma SFleb_total (a b : spec_float) :
  SFleb a a = true -> SFleb b b = true -> SFltb a b = false -> SFleb b a = true.
Proof. by_rank. Qed.

Lemma SFltb_comparable (a b : spec_float) :
  SFltb a b = true -> SFleb a a = true /\ SFleb b b = true.
Proof. by_rank. Qed.

(** ** The scan loops *)

Lemma scan_in_bounds better (orders : list (option Order)) n :
  forall i best bp,
    (i + n <= length orders)%nat ->
    exists r, scan better orders n i best bp = Ok r.
Proof.
  induction n as [|n IH]; intros i best bp Hlen; simpl.
  - eauto.
  - assert (Hi : (i < length orders)%nat) by lia.
    apply lookup_lt_is_Some_2 in Hi as [o Ho].
    rewrite Ho. destruct o as [ord|]; [destruct (_ && _)|]; apply IH; lia.
Qed.

Lemma scan_past_end better (orders : list (option Order)) n :
  forall i best bp,
    (i <= length orders < i + n)%nat ->
    scan better orders n i best bp = OutOfBounds.
Proof.
  induction n as [|n IH]; intros i best bp Hlen; simpl.
  - lia.
  - destruct (orders !! i) as [o|] eqn:Ho; [|reflexivity].
    apply lookup_lt_Some in Ho.
    destruct o as [ord|]; [destruct (_ && _)|]; apply IH; lia.
Qed.

Section ScanSpec.
(** [R p q]: price [p] is strictly better than [q]; [Rle] is its
    reflexive version. *)
Variables R Rle : double -> double -> bool.
Hypothesis R_irrefl : forall p, R p p = false.
Hypothesis R_trans : forall a b c, R a b = true -> R b c = true -> R a c = true.
Hypothesis Rle_R_trans :
  forall a b c, Rle a b = true -> R b c = true -> R a c = true.

Variable orders : list (option Order).
Variable p0 : double.

Local Abbreviation inv := (scan_inv R Rle orders p0).

Lemma scan_inv_init : inv 0%nat None p0.
Proof. split; [done | done | intros; lia]. Qed.

Lemma scan_inv_skip i best bp :
  inv i best bp ->
  (forall o, eligible orders i o -> R (price o) bp = false) ->
  inv (S i) best bp.
Proof.
  intros [Hn Hb Hs] Hi. split; [done | |].
  - intros k Hk. destruct (Hb k Hk) as [? ?]. split; [lia|done].
  - intros j oj Hj Hel. destruct (decide (j = i)) as [->|]; [eauto|].
    apply (Hs j oj); [lia|done].
Qed.

Lemma scan_inv_take i best bp o :
  inv i best bp ->
  eligible orders i o -> R (price o) bp = true ->
  inv (S i) (Some i) (price o).
Proof.
  intros [Hn Hb Hs] Hel HR. split; [done | |].
  - intros k [= <-]. split; [lia|]. exists o.
    split; [done|]. split; [done|]. split.
    + destruct best as [k|]; [|by rewrite <- (Hn eq_refl)].
      destruct (Hb k eq_refl) as (_ & ok & _ & <- & Hp0 & _). eauto.
    + intros j oj Hj Helj.
      destruct (Rle (price oj) (price o)) eqn:Hle; [|done].
      rewrite <- (Hs j oj Hj Helj). symmetry. eauto.
  - intros j oj Hj Helj. destruct (decide (j = i)) as [->|].
    + destruct Hel as [Hel _], Helj as [Helj _]. by simplify_eq.
    + destruct (R (price oj) (price o)) eqn:Hlt; [|done].
      rewrite <- (Hs j oj ltac:(lia) Helj). symmetry. eauto.
Qed.

Lemma scan_inv_run n :
  forall i best bp r,
    scan R orders n i best bp = Ok r ->
    inv i best bp ->
    exists bp', inv (i + n)%nat r bp'.
Proof.
  induction n as [|n IH]; intros i best bp r Hrun Hinv; simpl in Hrun.
  - simplify_eq. rewrite Nat.add_0_r. eauto.
  - replace (i + S n)%nat with (S i + n)%nat by lia.
    destruct (orders !! i) as [[ord|]|] eqn:Hi; [| |done].
    + destruct (0 <? quantity ord) eqn:Hq; simpl in Hrun.
      * destruct (R (price ord) bp) eqn:HR.
        -- apply (IH _ _ _ _ Hrun).
           apply (scan_inv_take i best bp ord); [done| |done].
           split; [done|lia].
        -- apply (IH _ _ _ _ Hrun). apply scan_inv_skip; [done|].
           intros o [Ho _]. by simplify_eq.
      * apply (IH _ _ _ _ Hrun). apply scan_inv_skip; [done|].
        intros o [Ho Hpos]. simplify_eq. lia.
    + apply (IH _ _ _ _ Hrun). apply scan_inv_skip; [done|].
      intros o [Ho _]. by simplify_eq.
Qed.

(** What a completed scan has selected: an eligible order, strictly
    better than the initial price, that no scanned eligible order beats
    and that no earlier eligible order equals. *)
Lemma scan_selected n k :
  scan R orders n 0 None p0 = Ok (Some k) ->
  (k < n)%nat /\
  exists o, eligible orders k o /\ R (price o) p0 = true /\
    (forall j oj, (j < n)%nat -> eligible orders j oj ->
                  R (price oj) (price o) = false) /\
    (forall j oj, (j < k)%nat -> eligible orders j oj ->
                  Rle (price oj) (price o) = false).
Proof.
  intros Hrun.
  destruct (scan_inv_run n 0 None p0 _ Hrun scan_inv_init) as [bp [_ Hb Hs]].
  destruct (Hb k eq_refl) as (Hk & o & Hel & <- & Hp0 & Hties).
  split; [lia|]. exists o. repeat split; try done; apply Hel.
Qed.

(** A completed scan selects nothing only when no scanned eligible order
    is better than the initial price. *)
Lemma scan_nothing n :
  scan R orders n 0 None p0 = Ok None ->
  forall j oj, (j < n)%nat -> eligible orders j oj -> R (price oj) p0 = false.
Proof.
  intros Hrun.
  destruct (scan_inv_run n 0 None p0 _ Hrun scan_inv_init) as [bp [Hn _ Hs]].
  rewrite <- (Hn eq_refl). exact Hs.
Qed.
End ScanSpec.

Lemma scanBuy_selected book k :
  scanBuy book = Ok (Some k) ->
  (k < Z.to_nat (buyCount book))%nat /\
  exists o, eligible (buyOrders book) k o /\
    SFltb highestBuyPrice0 (price o) = true /\
    (forall j oj, (j < Z.to_nat (buyCount book))%nat ->
       eligible (buyOrders book) j oj -> SFltb (price o) (price oj) = false) /\
    (forall j oj, (j < k)%nat ->
       eligible (buyOrders book) j oj -> SFleb (price o) (price oj) = false).
Proof.
  apply (scan_selected (fun p best => SFltb best p) (fun p best => SFleb best p)).
  - intros p. apply SFltb_irrefl.
  - intros a b c Hab Hbc. exact (SFltb_trans c b a Hbc Hab).
  - intros a b c Hab Hbc. exact (SFltb_leb_trans c b a Hbc Hab).
Qed.

Lemma scanSell_selected book k :
  scanSell book = Ok (Some k) ->
  (k < Z.to_nat (sellCount book))%nat /\
  exists o, eligible (sellOrders book) k o /\
    SFltb (price o) lowestSellPrice0 = true /\
    (forall j oj, (j < Z.to_nat (sellCount book))%nat ->
       eligible (sellOrders book) j oj -> SFltb (price oj) (price o) = false) /\
    (forall j oj, (j < k)%nat ->
       eligible (sellOrders book) j oj -> SFleb (price oj) (price o) = false).
Proof.
  apply (scan_selected SFltb SFleb).
  - apply SFltb_irrefl.
  - apply SFltb_trans.
  - apply SFleb_ltb_trans.
Qed.

Lemma scanBuy_nothing book :
  scanBuy book = Ok None ->
  forall j oj, (j < Z.to_nat (buyCount book))%nat ->
    eligible (buyOrders book) j oj -> SFltb highestBuyPrice0 (price oj) = false.
Proof.
  apply (scan_nothing (fun p best => SFltb best p) (fun p best => SFleb best p)).
  - intros p. apply SFltb_irrefl.
  - intros a b c Hab Hbc. exact (SFltb_trans c b a Hbc Hab).
  - intros a b c Hab Hbc. exact (SFltb_leb_trans c b a Hbc Hab).
Qed.

Lemma scanSell_nothing book :
  scanSell book = Ok None ->
  forall j oj, (j < Z.to_nat (sellCount book))%nat ->
    eligible (sellOrders book) j oj -> SFltb (price oj) lowestSellPrice0 = false.
Proof.
  apply (scan_nothing SFltb SFleb).
  - apply SFltb_irrefl.
  - apply SFltb_trans.
  - apply SFleb_ltb_trans.
Qed.

(** ** One iteration of the matching loop *)

Lemma matchIteration_cross tickerIndex book book' tr :
  matchIteration tickerIndex book = Ok (Some (book', tr)) ->
  exists bi si b s,
    scanBuy book = Ok (Some bi) /\ scanSell book = Ok (Some si) /\
    eligible (buyOrders book) bi b /\ eligible (sellOrders book) si s /\
    SFltb (price b) (price s) = false /\
    (book', tr) = crossed tickerIndex book bi si b s.
Proof.
  unfold matchIteration, bind. intros H.
  destruct (scanBuy book) as [[bi|]| |] eqn:Hb; try done;
    destruct (scanSell book) as [[si|]| |] eqn:Hs; try done.
  destruct (scanBuy_selected _ _ Hb) as (_ & b & Hbel & _).
  destruct (scanSell_selected _ _ Hs) as (_ & s & Hsel & _).
  pose proof Hbel as [Hbl _]. pose proof Hsel as [Hsl _].
  rewrite Hbl, Hsl in H.
  destruct (SFltb (price b) (price s)) eqn:Hlt; [done|].
  exists bi, si, b, s. simplify_eq. done.
Qed.

Lemma matchIteration_break tickerIndex book :
  matchIteration tickerIndex book = Ok None ->
  scanBuy book = Ok None \/
  (exists bi, scanBuy book = Ok (Some bi)) /\ scanSell book = Ok None \/
  exists bi si b s,
    scanBuy book = Ok (Some bi) /\ scanSell book = Ok (Some si) /\
    eligible (buyOrders book) bi b /\ eligible (sellOrders book) si s /\
    SFltb (price b) (price s) = true.
Proof.
  unfold matchIteration, bind. intros H.
  destruct (scanBuy book) as [[bi|]| |] eqn:Hb; try done; [|by left].
  destruct (scanSell book) as [[si|]| |] eqn:Hs; try done; [|right; left; eauto].
  destruct (scanBuy_selected _ _ Hb) as (_ & b & Hbel & _).
  destruct (scanSell_selected _ _ Hs) as (_ & s & Hsel & _).
  pose proof Hbel as [Hbl _]. pose proof Hsel as [Hsl _].
  rewrite Hbl, Hsl in H.
  destruct (SFltb (price b) (price s)) eqn:Hlt; [|done].
  right; right. exists bi, si, b, s. done.
Qed.

(** ** Quantities are [uint32_t] values *)

Lemma uint32_slot (orders : list (option Order)) j o :
  forallb uint32_order orders = true ->
  orders !! j = Some (Some o) -> is_uint32 (quantity o).
Proof.
  intros Hall Hj. rewrite forallb_forall in Hall.
  apply list_elem_of_lookup_2, list_elem_of_In, Hall in Hj.
  unfold uint32_order in Hj. unfold is_uint32. lia.
Qed.

Lemma wrap_uint32_id z : is_uint32 z -> wrap_uint32 z = z.
Proof. unfold is_uint32, wrap_uint32. intros H. apply Z.mod_small. lia. Qed.

(** X22. Within the arrays every cross is the one described: on a book
    whose counters do not exceed the array lengths and whose quantities
    are [uint32_t] values, an iteration that crosses has selected the two
    orders the scans return, prints the minimum of their quantities at the
    sell order's price, and stores in the two selected slots orders that
    differ from the old ones in the quantity only, each lowered by exactly
    the printed quantity; no other slot and no counter changes. *)
Theorem cross_quantity_and_price t book book' tr :
  in_bounds book = true ->
  uint32_book book = true ->
  matchIteration t book = Ok (Some (book', tr)) ->
  exists bi si b s b' s',
    scanBuy book = Ok (Some bi) /\ scanSell book = Ok (Some si) /\
    buyOrders book !! bi = Some (Some b) /\
    sellOrders book !! si = Some (Some s) /\
    trade_ticker tr = t /\
    trade_quantity tr = Z.min (quantity b) (quantity s) /\
    trade_price tr = price s /\
    buyOrders book' = <[bi := Some b']> (buyOrders book) /\
    sellOrders book' = <[si := Some s']> (sellOrders book) /\
    quantity b' = quantity b - trade_quantity tr /\
    quantity s' = quantity s - trade_quantity tr /\
    (isBuy b' = isBuy b /\ tickerIndex b' = tickerIndex b /\
     price b' = price b /\ timestamp b' = timestamp b) /\
    (isBuy s' = isBuy s /\ tickerIndex s' = tickerIndex s /\
     price s' = price s /\ timestamp s' = timestamp s) /\
    buyCount book' = buyCount book /\ sellCount book' = sellCount book.
Proof.
  intros _ Hu Hit. apply andb_prop in Hu as [Hub Hus].
  destruct (matchIteration_cross _ _ _ _ Hit)
    as (bi & si & b & s & Hb & Hs & [Hbl Hbq] & [Hsl Hsq] & _ & Heq).
  pose proof (uint32_slot _ _ _ Hub Hbl) as Hbr.
  pose proof (uint32_slot _ _ _ Hus Hsl) as Hsr.
  unfold crossed in Heq. simplify_eq.
  assert (Hmin : (if quantity b <? quantity s then quantity b else quantity s)
                 = Z.min (quantity b) (quantity s)).
  { destruct (Z.ltb_spec (quantity b) (quantity s)); lia. }
  eexists bi, si, b, s, _, _. simpl. rewrite Hmin.
  repeat (split; [reflexivity || done|]).
  unfold is_uint32 in *.
  rewrite !wrap_uint32_id by (unfold is_uint32; lia).
  done.
Qed.

Lemma cross_quantity_and_price_witness :
  exists bi si b s b' s',
    scanBuy scenarioC_before = Ok (Some bi) /\
    scanSell scenarioC_before = Ok (Some si) /\
    buyOrders scenarioC_before !! bi = Some (Some b) /\
    sellOrders scenarioC_before !! si = Some (Some s) /\
    trade_ticker (mkTrade 3 10 (double_of_Z 90)) = 3 /\
    trade_quantity (mkTrade 3 10 (double_of_Z 90)) = Z.min (quantity b) (quantity s) /\
    trade_price (mkTrade 3 10 (double_of_Z 90)) = price s /\
    buyOrders scenarioC_first = <[bi := Some b']> (buyOrders scenarioC_before) /\
    sellOrders scenarioC_first = <[si := Some s']> (sellOrders scenarioC_before) /\
    quantity b' = quantity b - trade_quantity (mkTrade 3 10 (double_of_Z 90)) /\
    quantity s' = quantity s - trade_quantity (mkTrade 3 10 (double_of_Z 90)) /\
    (isBuy b' = isBuy b /\ tickerIndex b' = tickerIndex b /\
     price b' = price b /\ timestamp b' = timestamp b) /\
    (isBuy s' = isBuy s /\ tickerIndex s' = tickerIndex s /\
     price s' = price s /\ timestamp s' = timestamp s) /\
    buyCount scenarioC_first = buyCount scenarioC_before /\
    sellCount scenarioC_first = sellCount scenarioC_before.
Proof.
  apply (cross_quantity_and_price 3 scenarioC_before scenarioC_first
           (mkTrade 3 10 (double_of_Z 90))).
  - reflexivity.
  - vm_compute. reflexivity.
  - vm_compute. reflexivity.
Defined.

(** C5. Scenario C: from the empty engine, Buy(3, 30 @ 100.0), Sell(3, 10 @ 90.0),
    Sell(3, 10 @ 95.0) and one matching pass on ticker 3 print exactly the
    trades 10 @ 90.0 then 10 @ 95.0; the buy order is left with quantity 10,
    both sell orders with quantity 0, and no other book is touched. *)
Theorem scenario_C_two_trades (extra : nat) :
  scenarioC (3 + extra) =
  Ok ({| globalTimestamp := 3;
         tickers := <[3%nat := scenarioC_book]> (tickers initial) |},
      [ mkTrade 3 10 (double_of_Z 90); mkTrade 3 10 (double_of_Z 95) ]).
Proof. reflexivity. Qed.

(** ** Termination of a matching pass *)

Lemma liveCount_insert (orders : list (option Order)) i x y :
  orders !! i = Some x ->
  (liveCount (<[i := y]> orders) + (if live x then 1 else 0) =
   liveCount orders + (if live y then 1 else 0))%nat.
Proof.
  revert i. induction orders as [|o rest IH]; intros [|i] Hi; simpl in *;
    try done.
  - simplify_eq. lia.
  - specialize (IH i Hi). lia.
Qed.

Lemma matchIteration_decreases tickerIndex book book' tr :
  matchIteration tickerIndex book = Ok (Some (book', tr)) ->
  (eligibleOrders book' < eligibleOrders book)%nat /\
  in_bounds book' = in_bounds book /\
  exists bi si b' s',
    scanBuy book = Ok (Some bi) /\ scanSell book = Ok (Some si) /\
    buyOrders book' !! bi = Some (Some b') /\
    sellOrders book' !! si = Some (Some s') /\
    (quantity b' = 0 \/ quantity s' = 0).
Proof.
  intros Hit.
  destruct (matchIteration_cross _ _ _ _ Hit)
    as (bi & si & b & s & Hb & Hs & [Hbl Hbq] & [Hsl Hsq] & _ & Heq).
  unfold crossed in Heq. simplify_eq.
  unfold eligibleOrders, in_bounds. simpl. rewrite !length_insert.
  pose proof (liveCount_insert (buyOrders book) bi (Some b)
    (Some (with_quantity b (wrap_uint32 (quantity b -
       (if quantity b <? quantity s then quantity b else quantity s))))) Hbl) as Lb.
  pose proof (liveCount_insert (sellOrders book) si (Some s)
    (Some (with_quantity s (wrap_uint32 (quantity s -
       (if quantity b <? quantity s then quantity b else quantity s))))) Hsl) as Ls.
  simpl in Lb, Ls.
  apply Z.ltb_lt in Hbq as Hbq', Hsq as Hsq'. rewrite Hbq' in Lb. rewrite Hsq' in Ls.
  apply lookup_lt_Some in Hbl as Hbi. apply lookup_lt_Some in Hsl as Hsi.
  split; [|split; [done|]].
  - destruct (quantity b <? quantity s).
    + rewrite Z.sub_diag in Lb |- *.
      change (0 <? wrap_uint32 0) with false in Lb. simpl in Lb.
      destruct (0 <? _) in Ls; lia.
    + rewrite Z.sub_diag in Ls |- *.
      change (0 <? wrap_uint32 0) with false in Ls. simpl in Ls.
      destruct (0 <? _) in Lb; lia.
  - eexists bi, si, _, _. repeat split; try done.
    + by apply list_lookup_insert_eq.
    + by apply list_lookup_insert_eq.
    + simpl. destruct (quantity b <? quantity s); rewrite Z.sub_diag; auto.
Qed.

Lemma matchIteration_ok tickerIndex book :
  in_bounds book = true ->
  exists r, matchIteration tickerIndex book = Ok r.
Proof.
  intros Hin. apply andb_prop in Hin as [Hb Hs].
  apply Z.leb_le in Hb, Hs.
  unfold matchIteration, bind.
  destruct (scan_in_bounds (fun p best => SFltb best p) (buyOrders book)
              (Z.to_nat (buyCount book)) 0 None highestBuyPrice0) as [rb Hrb]; [lia|].
  destruct (scan_in_bounds (fun p best => SFltb p best) (sellOrders book)
              (Z.to_nat (sellCount book)) 0 None lowestSellPrice0) as [rs Hrs]; [lia|].
  fold (scanBuy book) in Hrb. fold (scanSell book) in Hrs. rewrite Hrb, Hrs.
  destruct rb as [bi|]; [|eauto]. destruct rs as [si|]; [|eauto].
  destruct (scanBuy_selected _ _ Hrb) as (_ & b & [Hbl _] & _).
  destruct (scanSell_selected _ _ Hrs) as (_ & s & [Hsl _] & _).
  rewrite Hbl, Hsl. destruct (SFltb (price b) (price s)); eauto.
Qed.

Lemma matchLoop_terminates tickerIndex m :
  forall book,
    in_bounds book = true -> (eligibleOrders book <= m)%nat ->
    exists book' trades,
      matchIteration tickerIndex book' = Ok None /\
      forall fuel, (m < fuel)%nat ->
        matchLoop fuel tickerIndex book = Ok (book', trades).
Proof.
  induction m as [|m IH]; intros book Hin Hm;
    destruct (matchIteration_ok tickerIndex book Hin) as [[[book1 tr]|] Hit].
  - apply matchIteration_decreases in Hit as [Hlt _]. lia.
  - exists book, []. split; [done|].
    intros [|fuel] Hf; [lia|]. simpl. by rewrite Hit.
  - pose proof (matchIteration_decreases _ _ _ _ Hit) as (Hlt & Hin1 & _).
    destruct (IH book1) as (book' & trades & Hend & Hrun);
      [congruence | lia |].
    exists book', (tr :: trades). split; [done|].
    intros [|fuel] Hf; [lia|]. simpl. rewrite Hit. simpl.
    rewrite Hrun by lia. done.
  - exists book, []. split; [done|].
    intros [|fuel] Hf; [lia|]. simpl. by rewrite Hit.
Qed.

(** X24. A matching pass on a book whose counters are within the arrays
    terminates: every iteration that crosses leaves one of the two matched
    orders with quantity zero and strictly fewer eligible orders, and with
    more fuel than there are eligible orders the loop returns, at a book on
    which the next iteration finds no cross. *)
Theorem matching_pass_terminates tickerIndex book :
  in_bounds book = true ->
  (forall book1 tr,
     matchIteration tickerIndex book = Ok (Some (book1, tr)) ->
     (eligibleOrders book1 < eligibleOrders book)%nat /\
     exists bi si b' s',
       scanBuy book = Ok (Some bi) /\ scanSell book = Ok (Some si) /\
       buyOrders book1 !! bi = Some (Some b') /\
       sellOrders book1 !! si = Some (Some s') /\
       (quantity b' = 0 \/ quantity s' = 0)) /\
  exists book' trades,
    matchIteration tickerIndex book' = Ok None /\
    forall fuel, (eligibleOrders book < fuel)%nat ->
      matchLoop fuel tickerIndex book = Ok (book', trades).
Proof.
  intros Hin. split.
  - intros book1 tr Hit.
    destruct (matchIteration_decreases _ _ _ _ Hit) as (Hlt & _ & Hz). done.
  - by apply matchLoop_terminates.
Qed.

Lemma matching_pass_terminates_witness :
  in_bounds scenarioC_before = true /\
  exists book' trades,
    matchIteration 3 book' = Ok None /\
    forall fuel, (eligibleOrders scenarioC_before < fuel)%nat ->
      matchLoop fuel 3 scenarioC_before = Ok (book', trades).
Proof.
  split; [reflexivity|].
  exact (proj2 (matching_pass_terminates 3 scenarioC_before eq_refl)).
Defined.

(** ** Sequences of operations *)

Lemma filled_refl o : 0 <= quantity o -> filled o o.
Proof. intros H. split; [by destruct o | lia]. Qed.

Lemma filled_trans o1 o2 o3 : filled o1 o2 -> filled o2 o3 -> filled o1 o3.
Proof.
  intros [E1 B1] [E2 B2]. split; [|lia].
  rewrite E2 at 1. rewrite E1. done.
Qed.

Lemma forallb_null_spec (orders : list (option Order)) :
  forallb is_null orders = true <->
  forall k o, orders !! k = Some (Some o) -> False.
Proof.
  rewrite forallb_forall. split.
  - intros H k o Hk. apply list_elem_of_lookup_2, list_elem_of_In, H in Hk. done.
  - intros H [o|] Hin; [|done].
    apply list_elem_of_In, list_elem_of_lookup_1 in Hin as [k Hk]. by destruct (H k o).
Qed.

Lemma fresh_slots_spec count (orders : list (option Order)) :
  fresh_slots count orders = true <->
  count < 0 \/
  (count < 2 ^ 31 /\
   forall k o, orders !! k = Some (Some o) -> Z.of_nat k < count).
Proof.
  unfold fresh_slots.
  rewrite orb_true_iff, andb_true_iff, forallb_null_spec, !Z.ltb_lt.
  split; (intros [H|[H1 H2]]; [by left|]);
    destruct (decide (count < 0)) as [|Hc]; auto; right; (split; [done|]).
  - intros k o Hk. destruct (decide (Z.of_nat k < count)) as [|Hge]; [done|].
    destruct (H2 (k - Z.to_nat count)%nat o).
    rewrite lookup_drop, <- Hk. f_equal. lia.
  - intros k o Hk. rewrite lookup_drop in Hk. apply H2 in Hk. lia.
Qed.

Lemma wrap_int_succ z : 0 <= z < 2 ^ 31 - 1 -> wrap_int (z + 1) = z + 1.
Proof.
  intros H. unfold wrap_int. rewrite Z.mod_small by lia. lia.
Qed.

Lemma wrap_int_range z : - 2 ^ 31 <= wrap_int z < 2 ^ 31.
Proof.
  unfold wrap_int. pose proof (Z.mod_pos_bound (z + 2 ^ 31) (2 ^ 32)). lia.
Qed.

Lemma fresh_slots_claim count (orders : list (option Order)) x :
  fresh_slots count orders = true -> 0 <= count ->
  fresh_slots (wrap_int (count + 1)) (<[Z.to_nat count := x]> orders) = true /\
  forall k o, orders !! k = Some (Some o) ->
              <[Z.to_nat count := x]> orders !! k = Some (Some o).
Proof.
  rewrite !fresh_slots_spec. intros [?|[Hc Hfree]] H0; [lia|]. split.
  - pose proof (wrap_int_range (count + 1)).
    destruct (decide (wrap_int (count + 1) < 0)); [by left|right].
    split; [lia|]. intros k o Hk.
    assert (wrap_int (count + 1) = count + 1) as ->.
    { destruct (decide (count < 2 ^ 31 - 1)); [apply wrap_int_succ; lia|].
      assert (count = 2 ^ 31 - 1) as -> by lia. vm_compute in n. done. }
    destruct (decide (k = Z.to_nat count)) as [->|Hne]; [lia|].
    rewrite list_lookup_insert_ne in Hk by done. apply Hfree in Hk. lia.
  - intros k o Hk. rewrite list_lookup_insert_ne; [done|].
    apply Hfree in Hk. lia.
Qed.

Lemma fresh_slots_drop count (orders : list (option Order)) :
  fresh_slots count orders = true -> 0 <= count ->
  fresh_slots (wrap_int (count + 1)) orders = true.
Proof.
  rewrite !fresh_slots_spec. intros [?|[Hc Hfree]] H0; [lia|].
  pose proof (wrap_int_range (count + 1)).
  destruct (decide (wrap_int (count + 1) < 0)); [by left|right].
  split; [lia|]. intros k o Hk.
  assert (wrap_int (count + 1) = count + 1) as ->.
  { destruct (decide (count < 2 ^ 31 - 1)); [apply wrap_int_succ; lia|].
    assert (count = 2 ^ 31 - 1) as -> by lia. vm_compute in n. done. }
  apply Hfree in Hk. lia.
Qed.

Lemma array_set_ok {A} (a : list A) i x a' :
  array_set a i x = Ok a' ->
  0 <= i < Z.of_nat (length a) /\ a' = <[Z.to_nat i := x]> a.
Proof.
  unfold array_set. intros H.
  destruct (Z.leb_spec 0 i), (Z.ltb_spec i (Z.of_nat (length a)));
    simpl in H; simplify_eq. split; [lia|done].
Qed.

Lemma array_get_ok {A} (a : list A) i x :
  array_get a i = Ok x -> 0 <= i /\ a !! Z.to_nat i = Some x.
Proof.
  unfold array_get. intros H. destruct (Z.leb_spec 0 i); [|done].
  destruct (a !! Z.to_nat i); by simplify_eq.
Qed.

(** [addOrder] leaves every published order where it is. *)
Lemma addOrderBook_keeps isBuy t q p ts book book' :
  fresh_book book = true ->
  addOrderBook isBuy t q p ts book = Ok book' ->
  fresh_book book' = true /\
  forall side k o, side_orders side book !! k = Some (Some o) ->
                   side_orders side book' !! k = Some (Some o).
Proof.
  unfold fresh_book, addOrderBook. intros Hf H.
  apply andb_prop in Hf as [Hfb Hfs].
  destruct isBuy.
  - destruct (Z.ltb_spec (buyCount book) MAX_ORDERS_PER_SIDE).
    + destruct (array_set _ _ _) as [slots| |] eqn:Hset; simpl in H; [|done..].
      apply array_set_ok in Hset as [Hi ->]. simplify_eq. simpl.
      destruct (fresh_slots_claim _ _
        (Some (newOrder true t q p ts)) Hfb) as [Hf' Hkeep]; [lia|].
      rewrite Hf', Hfs. split; [done|].
      intros [] k o Hk; simpl in *; auto.
    + simplify_eq. simpl.
      rewrite fresh_slots_drop, Hfs; [|done|unfold MAX_ORDERS_PER_SIDE in *; lia].
      split; [done|]. intros [] k o Hk; simpl in *; auto.
  - destruct (Z.ltb_spec (sellCount book) MAX_ORDERS_PER_SIDE).
    + destruct (array_set _ _ _) as [slots| |] eqn:Hset; simpl in H; [|done..].
      apply array_set_ok in Hset as [Hi ->]. simplify_eq. simpl.
      destruct (fresh_slots_claim _ _
        (Some (newOrder false t q p ts)) Hfs) as [Hf' Hkeep]; [lia|].
      rewrite Hf', Hfb. split; [done|].
      intros [] k o Hk; simpl in *; auto.
    + simplify_eq. simpl.
      rewrite fresh_slots_drop, Hfb; [|done|unfold MAX_ORDERS_PER_SIDE in *; lia].
      split; [done|]. intros [] k o Hk; simpl in *; auto.
Qed.

Lemma fresh_slots_null_ext count (l l' : list (option Order)) :
  is_null <$> l = is_null <$> l' -> fresh_slots count l = fresh_slots count l'.
Proof.
  intros Heq. unfold fresh_slots. do 2 f_equal.
  assert (Hid : forall m : list (option Order),
            forallb is_null m = forallb id (is_null <$> m)).
  { induction m as [|x m IH]; simpl; [done|]. by rewrite IH. }
  rewrite !Hid, !fmap_drop, Heq. done.
Qed.

Lemma null_insert_occupied (l : list (option Order)) i o o' :
  l !! i = Some (Some o) -> is_null <$> <[i := Some o']> l = is_null <$> l.
Proof.
  intros Hi. rewrite list_fmap_insert. apply list_insert_id.
  rewrite list_lookup_fmap, Hi. done.
Qed.

(** One cross only lowers the quantities of the two orders it matches. *)
Lemma matchIteration_keeps tickerIndex book book' tr :
  matchIteration tickerIndex book = Ok (Some (book', tr)) ->
  fresh_book book' = fresh_book book /\
  forall side k o,
    side_orders side book !! k = Some (Some o) -> is_uint32 (quantity o) ->
    exists o', side_orders side book' !! k = Some (Some o') /\ filled o o'.
Proof.
  intros Hit.
  destruct (matchIteration_cross _ _ _ _ Hit)
    as (bi & si & b & s & Hb & Hs & [Hbl Hbq] & [Hsl Hsq] & _ & Heq).
  unfold crossed in Heq. simplify_eq. split.
  - unfold fresh_book. simpl. f_equal; apply fresh_slots_null_ext;
      eapply null_insert_occupied; eassumption.
  - set (m := if quantity b <? quantity s then quantity b else quantity s).
    assert (Hm : 0 <= m <= quantity b /\ m <= quantity s).
    { unfold m. destruct (Z.ltb_spec (quantity b) (quantity s)); lia. }
    intros [] k o Hk Hu; simpl in *.
    + destruct (decide (k = bi)) as [->|Hne].
      * simplify_eq. eexists. split.
        -- apply list_lookup_insert_eq. by eapply lookup_lt_Some.
        -- unfold is_uint32 in Hu.
           rewrite wrap_uint32_id by (unfold is_uint32; lia).
           split; simpl; [done|lia].
      * exists o. rewrite list_lookup_insert_ne by done.
        split; [done|]. apply filled_refl. unfold is_uint32 in Hu. lia.
    + destruct (decide (k = si)) as [->|Hne].
      * simplify_eq. eexists. split.
        -- apply list_lookup_insert_eq. by eapply lookup_lt_Some.
        -- unfold is_uint32 in Hu.
           rewrite wrap_uint32_id by (unfold is_uint32; lia).
           split; simpl; [done|lia].
      * exists o. rewrite list_lookup_insert_ne by done.
        split; [done|]. apply filled_refl. unfold is_uint32 in Hu. lia.
Qed.

Lemma matchLoop_keeps tickerIndex fuel :
  forall book book' trades,
    matchLoop fuel tickerIndex book = Ok (book', trades) ->
    fresh_book book' = fresh_book book /\
    forall side k o,
      side_orders side book !! k = Some (Some o) -> is_uint32 (quantity o) ->
      exists o', side_orders side book' !! k = Some (Some o') /\ filled o o'.
Proof.
  induction fuel as [|fuel IH]; intros book book' trades H; simpl in H; [done|].
  destruct (matchIteration tickerIndex book) as [[[book1 tr]|]| |] eqn:Hit;
    simpl in H; try done.
  - destruct (matchLoop fuel tickerIndex book1) as [[book2 ts]| |] eqn:Hrest;
      simpl in H; try done. simplify_eq.
    destruct (matchIteration_keeps _ _ _ _ Hit) as [Hf1 Hk1].
    destruct (IH _ _ _ Hrest) as [Hf2 Hk2].
    split; [congruence|]. intros side k o Hk Hu.
    destruct (Hk1 side k o Hk Hu) as (o1 & Hk' & Hfill1).
    destruct (Hk2 side k o1 Hk') as (o2 & Hk'' & Hfill2).
    { destruct Hfill1 as [_ ?]. unfold is_uint32 in *. lia. }
    exists o2. split; [done|]. by eapply filled_trans.
  - simplify_eq. split; [done|]. intros side k o Hk Hu.
    exists o. split; [done|]. apply filled_refl. unfold is_uint32 in Hu. lia.
Qed.

Lemma forallb_insert {A} (f : A -> bool) (l : list A) i x :
  forallb f l = true -> f x = true -> forallb f (<[i := x]> l) = true.
Proof.
  revert i. induction l as [|y l IH]; intros [|i] Hl Hx; simpl in *; try done.
  - apply andb_prop in Hl as [_ Hl]. by rewrite Hx, Hl.
  - apply andb_prop in Hl as [Hy Hl]. by rewrite Hy, IH.
Qed.

Lemma forallb_lookup {A} (f : A -> bool) (l : list A) i x :
  forallb f l = true -> l !! i = Some x -> f x = true.
Proof.
  intros Hl Hi. rewrite forallb_forall in Hl.
  by apply Hl, list_elem_of_In, list_elem_of_lookup_2 with i.
Qed.

Lemma update_book_keeps (T : list TickerOrderBook) i book book' g g' :
  T !! i = Some book ->
  (forall side k o,
     side_orders side book !! k = Some (Some o) -> is_uint32 (quantity o) ->
     exists o', side_orders side book' !! k = Some (Some o') /\ filled o o') ->
  forall t side k o,
    order_at (mkEngine g T) t side k = Some o -> is_uint32 (quantity o) ->
    exists o', order_at (mkEngine g' (<[i := book']> T)) t side k = Some o' /\
               filled o o'.
Proof.
  intros Hi Hbook t side k o Hat Hu. unfold order_at in *. simpl in *.
  destruct (decide (t = i)) as [->|Hne].
  - rewrite list_lookup_insert_eq by (by eapply lookup_lt_Some).
    rewrite Hi in Hat.
    destruct (side_orders side book !! k) as [[o0|]|] eqn:Hk; simplify_eq.
    destruct (Hbook side k o Hk Hu) as (o' & -> & Hfill). eauto.
  - rewrite list_lookup_insert_ne by done.
    exists o. split; [done|]. apply filled_refl. unfold is_uint32 in Hu. lia.
Qed.

Lemma step_keeps op s s' out :
  fresh_engine s = true ->
  step op s = Ok (s', out) ->
  fresh_engine s' = true /\
  forall t side k o,
    order_at s t side k = Some o -> is_uint32 (quantity o) ->
    exists o', order_at s' t side k = Some o' /\ filled o o'.
Proof.
  unfold fresh_engine. intros Hf H. destruct s as [g T]. simpl in Hf.
  destruct op as [b t q p|fuel t]; simpl in H.
  - unfold addOrder in H. simpl in H.
    destruct (NUM_TICKERS <=? t).
    + simpl in H. simplify_eq. split; [done|].
      intros t' side k o Hat Hu. exists o. split; [done|].
      apply filled_refl. unfold is_uint32 in Hu. lia.
    + destruct (array_get T t) as [book| |] eqn:Hget; simpl in H; try done.
      apply array_get_ok in Hget as [_ Hget].
      destruct (addOrderBook b t q p g book) as [book'| |] eqn:Hadd;
        simpl in H; try done. simplify_eq.
      destruct (addOrderBook_keeps _ _ _ _ _ _ _
                  (forallb_lookup _ _ _ _ Hf Hget) Hadd) as [Hf' Hkeep].
      split; [by apply forallb_insert|].
      apply update_book_keeps with book; [done|].
      intros side k o Hk Hu. exists o. split; [by apply Hkeep|].
      apply filled_refl. unfold is_uint32 in Hu. lia.
  - unfold matchOrdersForTicker in H. simpl in H.
    destruct (array_get T t) as [book| |] eqn:Hget; simpl in H; try done.
    apply array_get_ok in Hget as [_ Hget].
    destruct (matchLoop fuel t book) as [[book' trades]| |] eqn:Hloop;
      simpl in H; try done. simplify_eq.
    destruct (matchLoop_keeps _ _ _ _ _ Hloop) as [Hf' Hkeep].
    split.
    + apply forallb_insert; [done|]. rewrite Hf'.
      by eapply forallb_lookup.
    + by apply update_book_keeps with book.
Qed.

Lemma run_keeps ops :
  forall s s' out,
    fresh_engine s = true ->
    run ops s = Ok (s', out) ->
    forall t side k o,
      order_at s t side k = Some o -> is_uint32 (quantity o) ->
      exists o', order_at s' t side k = Some o' /\ filled o o'.
Proof.
  induction ops as [|op ops IH]; intros s s' out Hf H t side k o Hat Hu;
    simpl in H.
  - simplify_eq. exists o. split; [done|].
    apply filled_refl. unfold is_uint32 in Hu. lia.
  - destruct (step op s) as [[s1 out1]| |] eqn:Hstep; simpl in H; try done.
    destruct (run ops s1) as [[s2 out2]| |] eqn:Hrun; simpl in H; try done.
    simplify_eq.
    destruct (step_keeps _ _ _ _ Hf Hstep) as [Hf1 Hk1].
    destruct (Hk1 t side k o Hat Hu) as (o1 & Hat1 & Hfill1).
    destruct (IH _ _ _ Hf1 Hrun t side k o1 Hat1) as (o2 & Hat2 & Hfill2).
    { destruct Hfill1 as [_ ?]. unfold is_uint32 in *. lia. }
    exists o2. split; [done|]. by eapply filled_trans.
Qed.

(** An order whose quantity is zero is not selected by either scan. *)
Lemma scan_skips_filled book k o :
  quantity o = 0 ->
  (buyOrders book !! k = Some (Some o) -> scanBuy book <> Ok (Some k)) /\
  (sellOrders book !! k = Some (Some o) -> scanSell book <> Ok (Some k)).
Proof.
  intros Hq. split; intros Hk Hsel.
  - destruct (scanBuy_selected _ _ Hsel) as (_ & o' & [Hk' Hpos] & _).
    simplify_eq. lia.
  - destruct (scanSell_selected _ _ Hsel) as (_ & o' & [Hk' Hpos] & _).
    simplify_eq. lia.
Qed.

(** X23. Along every sequence of submissions and matching passes that runs
    without leaving the arrays, an order stays in its slot with all its
    fields but the quantity, its quantity never increases and never goes
    below zero; and in any book a scan never selects a slot whose order
    has quantity zero, so an order that reached zero stays at zero and
    takes part in no later cross. *)
Theorem remaining_quantity_monotone ops s s' out t side k o :
  fresh_engine s = true ->
  order_at s t side k = Some o ->
  is_uint32 (quantity o) ->
  run ops s = Ok (s', out) ->
  (exists o',
     order_at s' t side k = Some o' /\
     o' = with_quantity o (quantity o') /\
     0 <= quantity o' <= quantity o /\
     (quantity o = 0 -> o' = o)) /\
  (forall book j z,
     quantity z = 0 ->
     (buyOrders book !! j = Some (Some z) -> scanBuy book <> Ok (Some j)) /\
     (sellOrders book !! j = Some (Some z) -> scanSell book <> Ok (Some j))).
Proof.
  intros Hf Hat Hu Hrun. split.
  - destruct (run_keeps _ _ _ _ Hf Hrun _ _ _ _ Hat Hu) as (o' & Hat' & E & B).
    exists o'. repeat split; try done; try lia.
    intros Hz. rewrite E. assert (quantity o' = 0) as -> by lia.
    rewrite <- Hz. by destruct o.
  - intros book j z. apply scan_skips_filled.
Qed.

Lemma remaining_quantity_monotone_witness :
  (exists o',
     order_at (outcome (initial, []) (run scenarioC_ops scenarioC_engine)).1
              3 true 0 = Some o' /\
     o' = with_quantity (mkOrder true 3 30 (double_of_Z 100) 0) (quantity o') /\
     0 <= quantity o' <= 30 /\
     (30 = 0 -> o' = mkOrder true 3 30 (double_of_Z 100) 0)) /\
  (forall book j z,
     quantity z = 0 ->
     (buyOrders book !! j = Some (Some z) -> scanBuy book <> Ok (Some j)) /\
     (sellOrders book !! j = Some (Some z) -> scanSell book <> Ok (Some j))).
Proof.
  apply (remaining_quantity_monotone scenarioC_ops scenarioC_engine
           (outcome (initial, []) (run scenarioC_ops scenarioC_engine)).1
           (outcome (initial, []) (run scenarioC_ops scenarioC_engine)).2
           3%nat true 0%nat (mkOrder true 3 30 (double_of_Z 100) 0)).
  - vm_compute. reflexivity.
  - reflexivity.
  - unfold is_uint32. simpl. lia.
  - reflexivity.
Defined.

(** ** Repeated submissions *)

Lemma submitMany_succ n isBuy t q p s :
  submitMany (N.succ n) isBuy t q p s =
  let* s' := submitMany n isBuy t q p s in addOrder isBuy t q p s'.
Proof. unfold submitMany. by rewrite N.iter_succ. Qed.

(** A call with a ticker outside the exchange changes the time stamp only. *)
Lemma addOrder_rejected isBuy t q p s :
  NUM_TICKERS <= t ->
  addOrder isBuy t q p s =
  Ok {| globalTimestamp := wrap_uint64 (globalTimestamp s + 1);
        tickers := tickers s |}.
Proof.
  intros Ht. unfold addOrder.
  destruct (Z.leb_spec NUM_TICKERS t); [done|lia].
Qed.

Lemma submitMany_rejected n isBuy t q p :
  NUM_TICKERS <= t -> (Z.of_N n < 2 ^ 64) ->
  submitMany n isBuy t q p initial =
  Ok {| globalTimestamp := Z.of_N n; tickers := tickers initial |}.
Proof.
  intros Ht. induction n as [|n IH] using N.peano_ind; intros Hn.
  - reflexivity.
  - rewrite submitMany_succ, IH by lia. simpl.
    rewrite addOrder_rejected by done. simpl. do 2 f_equal.
    unfold wrap_uint64. rewrite Z.mod_small; lia.
Qed.

Lemma addOrder_accepted isBuy t q p s book :
  0 <= t < NUM_TICKERS ->
  tickers s !! Z.to_nat t = Some book ->
  addOrder isBuy t q p s =
  let* book' := addOrderBook isBuy t q p (globalTimestamp s) book in
  Ok {| globalTimestamp := wrap_uint64 (globalTimestamp s + 1);
        tickers := <[Z.to_nat t := book']> (tickers s) |}.
Proof.
  intros Ht Hbook. unfold addOrder, array_get.
  destruct (Z.leb_spec NUM_TICKERS t); [lia|].
  destruct (Z.leb_spec 0 t); [|lia].
  rewrite Hbook. done.
Qed.

(** What [addOrder] does to a buy counter, by where the counter stands. *)
Lemma addOrderBook_buy_stores t q p ts book :
  0 <= buyCount book < MAX_ORDERS_PER_SIDE ->
  buyCount book < Z.of_nat (length (buyOrders book)) ->
  addOrderBook true t q p ts book =
  Ok {| buyOrders := <[Z.to_nat (buyCount book) := Some (newOrder true t q p ts)]>
                       (buyOrders book);
        sellOrders := sellOrders book;
        buyCount := buyCount book + 1; sellCount := sellCount book |}.
Proof.
  intros Hc Hlen. unfold addOrderBook, array_set, MAX_ORDERS_PER_SIDE in *.
  destruct (Z.ltb_spec (buyCount book) 1024); [|lia].
  destruct (Z.leb_spec 0 (buyCount book)); [|lia].
  destruct (Z.ltb_spec (buyCount book) (Z.of_nat (length (buyOrders book)))); [|lia].
  simpl. rewrite wrap_int_succ by lia. done.
Qed.

Lemma addOrderBook_buy_drops t q p ts book :
  MAX_ORDERS_PER_SIDE <= buyCount book < 2 ^ 31 - 1 ->
  addOrderBook true t q p ts book =
  Ok {| buyOrders := buyOrders book; sellOrders := sellOrders book;
        buyCount := buyCount book + 1; sellCount := sellCount book |}.
Proof.
  intros Hc. unfold addOrderBook, MAX_ORDERS_PER_SIDE in *.
  destruct (Z.ltb_spec (buyCount book) 1024); [lia|].
  rewrite wrap_int_succ by lia. done.
Qed.

Lemma addOrderBook_buy_wraps t q p ts book :
  buyCount book = 2 ^ 31 - 1 ->
  addOrderBook true t q p ts book =
  Ok {| buyOrders := buyOrders book; sellOrders := sellOrders book;
        buyCount := - 2 ^ 31; sellCount := sellCount book |}.
Proof. intros Hc. unfold addOrderBook. rewrite Hc. reflexivity. Qed.

Lemma addOrderBook_buy_negative t q p ts book :
  buyCount book < 0 ->
  addOrderBook true t q p ts book = OutOfBounds.
Proof.
  intros Hc. unfold addOrderBook, array_set, MAX_ORDERS_PER_SIDE.
  destruct (Z.ltb_spec (buyCount book) 1024); [|lia].
  destruct (Z.leb_spec 0 (buyCount book)); [lia|]. done.
Qed.

(** The engine after [n] buy submissions on ticker 0, as long as the
    counter has not wrapped: the counter is [n] and the first
    [min n 1024] slots hold the first orders, in order of submission. *)
Lemma submitMany_buy_count n q p :
  (Z.of_N n < 2 ^ 31) ->
  exists s book,
    submitMany n true 0 q p initial = Ok s /\
    globalTimestamp s = Z.of_N n /\
    tickers s !! 0%nat = Some book /\
    buyCount book = Z.of_N n /\
    length (buyOrders book) = 1024%nat /\
    forall k, Z.of_nat k < Z.min (Z.of_N n) MAX_ORDERS_PER_SIDE ->
      buyOrders book !! k = Some (Some (newOrder true 0 q p (Z.of_nat k))).
Proof.
  induction n as [|n IH] using N.peano_ind; intros Hn.
  - exists initial, emptyBook. repeat split; try reflexivity.
    intros k Hk. unfold MAX_ORDERS_PER_SIDE in Hk. lia.
  - destruct IH as (s & book & Hrun & Hg & Hbook & Hc & Hlen & Hslots); [lia|].
    rewrite submitMany_succ, Hrun. unfold bind at 1.
    rewrite (addOrder_accepted true 0 q p s book) by done.
    change (Z.to_nat 0) with 0%nat.
    assert (Hwrap : wrap_uint64 (globalTimestamp s + 1) = Z.of_N (N.succ n)).
    { unfold wrap_uint64. rewrite Z.mod_small; lia. }
    unfold MAX_ORDERS_PER_SIDE in *.
    destruct (decide (buyCount book < 1024)).
    + rewrite addOrderBook_buy_stores
        by (rewrite ?Hlen; unfold MAX_ORDERS_PER_SIDE; lia).
      simpl. eexists _, _. split; [reflexivity|]. simpl.
      rewrite list_lookup_insert_eq by (by eapply lookup_lt_Some).
      repeat split; [done| simpl; lia | simpl; by rewrite length_insert |].
      simpl. intros k Hk. destruct (decide (k = Z.to_nat (buyCount book))) as [->|Hne].
      * rewrite list_lookup_insert_eq by lia. do 3 f_equal. lia.
      * rewrite list_lookup_insert_ne by done. apply Hslots. lia.
    + rewrite addOrderBook_buy_drops by (unfold MAX_ORDERS_PER_SIDE; lia).
      simpl. eexists _, _. split; [reflexivity|]. simpl.
      rewrite list_lookup_insert_eq by (by eapply lookup_lt_Some).
      repeat split; [done| simpl; lia | done |].
      simpl. intros k Hk. apply Hslots. lia.
Qed.

(** ** What does hold of a finished pass *)

Lemma SFleb_comparable (a b : spec_float) :
  SFleb a b = true -> SFleb a a = true /\ SFleb b b = true.
Proof. by_rank. Qed.

Lemma matchLoop_exit tickerIndex fuel :
  forall book book' trades,
    matchLoop fuel tickerIndex book = Ok (book', trades) ->
    matchIteration tickerIndex book' = Ok None.
Proof.
  induction fuel as [|fuel IH]; intros book book' trades H; simpl in H; [done|].
  destruct (matchIteration tickerIndex book) as [[[book1 tr]|]| |] eqn:Hit;
    simpl in H; try done.
  - destruct (matchLoop fuel tickerIndex book1) as [[book2 ts]| |] eqn:Hrest;
      simpl in H; try done. simplify_eq. eauto.
  - by simplify_eq.
Qed.

(** After a pass, no two scanned eligible orders whose prices lie strictly
    between the two initial prices of the scans cross. *)
Lemma no_cross_within_sentinels tickerIndex fuel book book' trades :
  matchLoop fuel tickerIndex book = Ok (book', trades) ->
  forall i j b s,
    (i < Z.to_nat (buyCount book'))%nat -> (j < Z.to_nat (sellCount book'))%nat ->
    eligible (buyOrders book') i b -> eligible (sellOrders book') j s ->
    SFltb highestBuyPrice0 (price b) = true ->
    SFltb (price s) lowestSellPrice0 = true ->
    SFleb (price s) (price b) = false.
Proof.
  intros Hrun i j b s Hi Hj Hb Hs Hlo Hhi.
  apply matchLoop_exit, matchIteration_break in Hrun
    as [Hnone|[[_ Hnone]|(bi & si & bb & ss & Hsb & Hss & [Hbl _] & [Hsl _] & Hlt)]].
  - rewrite (scanBuy_nothing _ Hnone i b Hi Hb) in Hlo. done.
  - rewrite (scanSell_nothing _ Hnone j s Hj Hs) in Hhi. done.
  - destruct (scanBuy_selected _ _ Hsb) as (_ & bb' & [Hbb _] & _ & Hbest & _).
    destruct (scanSell_selected _ _ Hss) as (_ & ss' & [Hss' _] & _ & Hlow & _).
    assert (bb' = bb) as -> by congruence.
    assert (ss' = ss) as -> by congruence.
    specialize (Hbest i b Hi Hb). specialize (Hlow j s Hj Hs).
    destruct (SFleb (price s) (price b)) eqn:Hle; [|done].
    destruct (SFleb_comparable _ _ Hle) as [_ Hbc].
    destruct (SFltb_comparable _ _ Hlt) as [Hbbc _].
    pose proof (SFleb_total _ _ Hbbc Hbc Hbest) as Hb_le.
    pose proof (SFleb_trans _ _ _ Hle Hb_le) as Hs_le.
    rewrite (SFleb_ltb_trans _ _ _ Hs_le Hlt) in Hlow. done.
Qed.

(** A pass on a book whose buy counter is past the array leaves the array. *)
Lemma matchIteration_past_capacity tickerIndex book :
  Z.of_nat (length (buyOrders book)) < buyCount book ->
  matchIteration tickerIndex book = OutOfBounds.
Proof.
  intros H. unfold matchIteration, scanBuy.
  rewrite scan_past_end by lia. done.
Qed.

(** ** Reachable engines *)

Lemma initial_fresh : fresh_engine initial = true.
Proof. vm_compute. reflexivity. Qed.

Lemma run_fresh ops :
  forall s s' out,
    fresh_engine s = true -> run ops s = Ok (s', out) -> fresh_engine s' = true.
Proof.
  induction ops as [|op ops IH]; intros s s' out Hf H; simpl in H.
  - by simplify_eq.
  - destruct (step op s) as [[s1 out1]| |] eqn:Hstep; simpl in H; try done.
    destruct (run ops s1) as [[s2 out2]| |] eqn:Hrun; simpl in H; try done.
    simplify_eq. destruct (step_keeps _ _ _ _ Hf Hstep) as [Hf1 _]. eauto.
Qed.

(** The three submissions of scenario C lead to [scenarioC_engine]. *)
Lemma scenarioC_engine_reached :
  (let* s1 := addOrder true 3 30 (double_of_Z 100) initial in
   let* s2 := addOrder false 3 10 (double_of_Z 90) s1 in
   addOrder false 3 10 (double_of_Z 95) s2) = Ok scenarioC_engine.
Proof. reflexivity. Qed.

Lemma wrap_uint32_range z : is_uint32 (wrap_uint32 z).
Proof. unfold is_uint32, wrap_uint32. apply Z.mod_pos_bound. lia. Qed.

Lemma uint32_order_spec o :
  uint32_order (Some o) = true <-> is_uint32 (quantity o).
Proof. unfold uint32_order, is_uint32. lia. Qed.

(** Stored quantities stay [uint32_t] values. *)
Lemma addOrderBook_uint32 isBuy t q p ts book book' :
  uint32_book book = true -> is_uint32 q ->
  addOrderBook isBuy t q p ts book = Ok book' ->
  uint32_book book' = true.
Proof.
  unfold uint32_book, addOrderBook. intros Hu Hq H.
  apply andb_prop in Hu as [Hub Hus].
  assert (Hnew : forall b, uint32_order (Some (newOrder b t q p ts)) = true)
    by (intros b; by apply uint32_order_spec).
  destruct isBuy; destruct (_ <? MAX_ORDERS_PER_SIDE);
    try (simplify_eq; simpl; by rewrite Hub, Hus);
    destruct (array_set _ _ _) as [slots| |] eqn:Hset; simpl in H; try done;
    apply array_set_ok in Hset as [_ ->]; simplify_eq; simpl.
  - by rewrite forallb_insert, Hus.
  - by rewrite Hub, forallb_insert.
Qed.

Lemma matchIteration_uint32 tickerIndex book book' tr :
  uint32_book book = true ->
  matchIteration tickerIndex book = Ok (Some (book', tr)) ->
  uint32_book book' = true.
Proof.
  intros Hu Hit.
  destruct (matchIteration_cross _ _ _ _ Hit)
    as (bi & si & b & s & _ & _ & _ & _ & _ & Heq).
  unfold crossed in Heq. simplify_eq.
  unfold uint32_book in *. apply andb_prop in Hu as [Hub Hus]. simpl.
  rewrite !forallb_insert; try done; apply uint32_order_spec, wrap_uint32_range.
Qed.

Lemma matchLoop_uint32 tickerIndex fuel :
  forall book book' trades,
    uint32_book book = true ->
    matchLoop fuel tickerIndex book = Ok (book', trades) ->
    uint32_book book' = true.
Proof.
  induction fuel as [|fuel IH]; intros book book' trades Hu H; simpl in H; [done|].
  destruct (matchIteration tickerIndex book) as [[[book1 tr]|]| |] eqn:Hit;
    simpl in H; try done; [|by simplify_eq].
  destruct (matchLoop fuel tickerIndex book1) as [[book2 ts]| |] eqn:Hrest;
    simpl in H; try done. simplify_eq.
  apply (IH book1 book' ts); [|done].
  by eapply matchIteration_uint32.
Qed.

(** The order stored by an accepted buy carries the time stamp counter of
    the call, cut to 32 bits. *)
Lemma addOrder_buy_timestamp t q p s book :
  0 <= t < NUM_TICKERS ->
  tickers s !! Z.to_nat t = Some book ->
  0 <= buyCount book < MAX_ORDERS_PER_SIDE ->
  buyCount book < Z.of_nat (length (buyOrders book)) ->
  exists s',
    addOrder true t q p s = Ok s' /\
    globalTimestamp s' = wrap_uint64 (globalTimestamp s + 1) /\
    exists o, order_at s' (Z.to_nat t) true (Z.to_nat (buyCount book)) = Some o /\
              timestamp o = wrap_uint32 (globalTimestamp s).
Proof.
  intros Ht Hbook Hc Hlen.
  rewrite (addOrder_accepted true t q p s book) by done.
  rewrite addOrderBook_buy_stores by done. simpl.
  eexists. split; [reflexivity|]. split; [done|].
  unfold order_at. simpl.
  rewrite list_lookup_insert_eq by (by eapply lookup_lt_Some). simpl.
  rewrite list_lookup_insert_eq by lia. eauto.
Qed.

(** ** Where the code leaves the specification *)

(** C1. A pass can end with a cross on the book: with Buy(1 @ 3e9) and
    Sell(1 @ 2e9) on ticker 0 the sell scan, which starts from 1e9, selects
    nothing; the pass ends without a trade and leaves both orders with
    quantity 1 although the buy price is at least the sell price. *)
Theorem pass_leaves_cross_beyond_sentinel (extra : nat) :
  beyondSentinels (S extra) =
    Ok ({| globalTimestamp := 2;
           tickers := <[0%nat := beyondSentinels_book]> (tickers initial) |},
        []) /\
  eligible (buyOrders beyondSentinels_book) 0
           (mkOrder true 0 1 (double_of_Z 3000000000) 0) /\
  eligible (sellOrders beyondSentinels_book) 0
           (mkOrder false 0 1 (double_of_Z 2000000000) 1) /\
  SFleb (double_of_Z 2000000000) (double_of_Z 3000000000) = true.
Proof.
  split; [reflexivity|].
  repeat split; vm_compute; reflexivity.
Qed.

(** C2. The sell scan does not select the lowest eligible sell for every
    price: after Sell(1 @ 2e9) on the empty engine the only eligible sell,
    at 2e9, is not below the initial [lowestSellPrice] of 1e9 and the scan
    returns [nullptr]. *)
Theorem lowest_sell_not_selected_beyond_sentinel :
  (let* s := addOrder false 0 1 (double_of_Z 2000000000) initial in
   array_get (tickers s) 0) = Ok highAsk_book /\
  eligible (sellOrders highAsk_book) 0
           (mkOrder false 0 1 (double_of_Z 2000000000) 0) /\
  scanSell highAsk_book = Ok None.
Proof. repeat split; vm_compute; reflexivity. Qed.

(** C3. The buy scan does not select the highest eligible buy for every
    price: after Buy(1 @ -2.0) on the empty engine the only eligible buy,
    at -2.0, is not above the initial [highestBuyPrice] of -1.0 and the scan
    returns [nullptr]. *)
Theorem highest_buy_not_selected_beyond_sentinel :
  (let* s := addOrder true 0 1 (double_of_Z (-2)) initial in
   array_get (tickers s) 0) = Ok negativeBid_book /\
  eligible (buyOrders negativeBid_book) 0 (mkOrder true 0 1 (double_of_Z (-2)) 0) /\
  scanBuy negativeBid_book = Ok None.
Proof. repeat split; vm_compute; reflexivity. Qed.

Lemma submitMany_buy_wrap n q p :
  Z.of_N n = 2 ^ 31 - 1 ->
  (exists s book,
     submitMany (N.succ n) true 0 q p initial = Ok s /\
     tickers s !! 0%nat = Some book /\
     buyCount book = - 2 ^ 31) /\
  submitMany (N.succ (N.succ n)) true 0 q p initial = OutOfBounds.
Proof.
  intros Hn.
  destruct (submitMany_buy_count n q p)
    as (s & book & Hrun & Hg & Hbook & Hc & Hlen & _); [lia|].
  assert (H1 : submitMany (N.succ n) true 0 q p initial =
    Ok {| globalTimestamp := wrap_uint64 (globalTimestamp s + 1);
          tickers := <[0%nat :=
            {| buyOrders := buyOrders book; sellOrders := sellOrders book;
               buyCount := - 2 ^ 31; sellCount := sellCount book |}]>
            (tickers s) |}).
  { rewrite submitMany_succ, Hrun. unfold bind at 1.
    rewrite (addOrder_accepted true 0 _ _ s book) by done.
    rewrite addOrderBook_buy_wraps by lia. done. }
  split.
  - eexists _, _. split; [exact H1|]. simpl.
    rewrite list_lookup_insert_eq by (by eapply lookup_lt_Some). done.
  - rewrite submitMany_succ, H1. unfold bind at 1.
    erewrite addOrder_accepted; [|done|].
    2: { simpl. apply list_lookup_insert_eq. by eapply lookup_lt_Some. }
    rewrite addOrderBook_buy_negative by done. done.
Qed.

(** C6. Submissions after the 1024th are not all dropped: the buy counter of
    a ticker is an [int] that every submission increments, so the 2^31-th
    buy submission on ticker 0 wraps it to -2^31 instead of advancing it,
    and the next one passes the test [index < MAX_ORDERS_PER_SIDE] with a
    negative index and writes outside [buyOrders]. *)
Theorem submission_after_counter_wrap :
  (exists s book,
     submitMany 2147483648 true 0 1 (double_of_Z 1) initial = Ok s /\
     tickers s !! 0%nat = Some book /\
     buyCount book = -2147483648) /\
  submitMany 2147483649 true 0 1 (double_of_Z 1) initial = OutOfBounds.
Proof. exact (submitMany_buy_wrap 2147483647 1 (double_of_Z 1) eq_refl). Qed.

(** C7. A rejected call consumes a time stamp, but the next accepted order
    does not always get a larger sequence number: the [Order] constructor
    takes the time stamp as a [uint32_t].  After 2^32 - 2 calls, an accepted
    order gets 4294967294, a rejected call consumes 4294967295, and the next
    accepted order is stamped 0, while the counter stands at 2^32 + 1. *)
Theorem sequence_number_truncated :
  truncatedSequence = Ok (Some 4294967294, Some 0, 4294967297).
Proof.
  unfold truncatedSequence.
  rewrite submitMany_rejected; [|vm_compute; discriminate|reflexivity].
  vm_compute. reflexivity.
Qed.

(** C4. Not every cross is the one described.  After 1025 buys of 1 at
    10.0 and a sell of 5 at 20.0 on ticker 0 the book holds the buy in
    slot 0 and the sell in slot 0, the buy counter is 1025 over 1024 slots,
    and the iteration, instead of finding that 10.0 < 20.0 and breaking,
    reads [buyOrders[1024]], outside the array: the order it goes on to
    cross is not an order of the buy side. *)
Theorem cross_past_capacity_reads_outside :
  order_at overfullSell_engine 0 true 0 =
    Some (mkOrder true 0 1 (double_of_Z 10) 0) /\
  order_at overfullSell_engine 0 false 0 =
    Some (mkOrder false 0 5 (double_of_Z 20) 1025) /\
  (buyCount overfullSell_book, length (buyOrders overfullSell_book)) =
    (1025, 1024%nat) /\
  scanBuy overfullSell_book = OutOfBounds /\
  matchIteration 0 overfullSell_book = OutOfBounds.
Proof. repeat apply conj; vm_compute; reflexivity. Qed.

(** C8. Not along every sequence.  The 1026 submissions of
    [overfullSell_run] return and leave the sell of 5 at 20.0, a
    [uint32_t] quantity, in slot 0 of the sell side; one more operation, a
    pass on that ticker, indexes outside the buy array whatever its fuel,
    so nothing bounds the quantity of that order afterwards. *)
Theorem quantity_unbounded_past_capacity :
  (let* r := run overfullSell_run initial in Ok (order_at r.1 0 false 0, r.2)) =
    Ok (Some (mkOrder false 0 5 (double_of_Z 20) 1025), []) /\
  forall fuel,
    run (overfullSell_run ++ [MatchPass (S fuel) 0]) initial = OutOfBounds.
Proof.
  split; [vm_compute; reflexivity|].
  intros fuel. vm_compute. reflexivity.
Qed.

(** C9. Not on every book state.  On the book reached by
    [overfullSell_run], which holds 1025 orders that can still trade, no
    amount of fuel makes the pass return: without fuel it has not
    finished, and with any fuel its first iteration indexes outside the
    buy array. *)
Theorem pass_past_capacity_never_returns (fuel : nat) :
  eligibleOrders overfullSell_book = 1025%nat /\
  matchOrdersForTicker fuel 0 overfullSell_engine =
    match fuel with
    | O => OutOfFuel
    | S _ => OutOfBounds
    end.
Proof. apply conj; [|destruct fuel]; vm_compute; reflexivity. Qed.

(** C10. The counters do exceed the capacity: after 1025 buy submissions on
    ticker 0 the buy counter is 1025, and a matching pass reads
    [buyOrders[1024]], outside the array of 1024 slots. *)
Theorem pass_reads_past_capacity (fuel : nat) :
  (let* s := overfullBook in
   let* book := array_get (tickers s) 0 in
   Ok (buyCount book, length (buyOrders book))) = Ok (1025, 1024%nat) /\
  (let* s := overfullBook in matchOrdersForTicker (S fuel) 0 s) = OutOfBounds.
Proof. split; vm_compute; reflexivity. Qed.

(** * Further properties of the code *)

(** ** The two sides of [addOrder], uniformly *)

Lemma addOrderBook_side isBuy t q p ts book :
  addOrderBook isBuy t q p ts book =
  if side_count isBuy book <? MAX_ORDERS_PER_SIDE then
    let* slots := array_set (side_orders isBuy book) (side_count isBuy book)
                    (Some (newOrder isBuy t q p ts)) in
    Ok (with_side isBuy slots (wrap_int (side_count isBuy book + 1)) book)
  else
    Ok (with_side isBuy (side_orders isBuy book)
          (wrap_int (side_count isBuy book + 1)) book).
Proof.
  destruct isBuy; unfold addOrderBook, side_count, side_orders, with_side;
    destruct (_ <? _); try reflexivity;
    destruct (array_set _ _ _); reflexivity.
Qed.

Lemma side_orders_with_side b b' orders count book :
  side_orders b' (with_side b orders count book) =
  if decide (b' = b) then orders else side_orders b' book.
Proof. by destruct b, b'. Qed.

Lemma side_count_with_side b b' orders count book :
  side_count b' (with_side b orders count book) =
  if decide (b' = b) then count else side_count b' book.
Proof. by destruct b, b'. Qed.

(** What one operation of a run does, by cases. *)
Lemma step_cases op s s' out :
  step op s = Ok (s', out) ->
  (exists b t q p,
     op = Submit b t q p /\ NUM_TICKERS <= t /\ out = [] /\
     s' = mkEngine (wrap_uint64 (globalTimestamp s + 1)) (tickers s)) \/
  (exists b t q p book book',
     op = Submit b t q p /\ 0 <= t < NUM_TICKERS /\ out = [] /\
     tickers s !! Z.to_nat t = Some book /\
     addOrderBook b t q p (globalTimestamp s) book = Ok book' /\
     s' = mkEngine (wrap_uint64 (globalTimestamp s + 1))
                   (<[Z.to_nat t := book']> (tickers s))) \/
  (exists fuel t book book',
     op = MatchPass fuel t /\ 0 <= t /\
     tickers s !! Z.to_nat t = Some book /\
     matchLoop fuel t book = Ok (book', out) /\
     s' = mkEngine (globalTimestamp s) (<[Z.to_nat t := book']> (tickers s))).
Proof.
  intros H. destruct op as [b t q p|fuel t]; simpl in H.
  - unfold addOrder in H.
    destruct (Z.leb_spec NUM_TICKERS t).
    + left. simpl in H. simplify_eq. by exists b, t, q, p.
    + right; left.
      destruct (array_get (tickers s) t) as [book| |] eqn:Hget; simpl in H; try done.
      apply array_get_ok in Hget as [Ht Hget].
      destruct (addOrderBook b t q p (globalTimestamp s) book)
        as [book'| |] eqn:Hadd; simpl in H; try done.
      simplify_eq. exists b, t, q, p, book, book'. repeat split; try done; lia.
  - right; right. unfold matchOrdersForTicker in H.
    destruct (array_get (tickers s) t) as [book| |] eqn:Hget; simpl in H; try done.
    apply array_get_ok in Hget as [Ht Hget].
    destruct (matchLoop fuel t book) as [[book' trades]| |] eqn:Hloop;
      simpl in H; try done.
    simplify_eq. by exists fuel, t, book, book'.
Qed.

(** ** Time stamps are consumed by every call of [addOrder] *)

Lemma wrap_uint64_range z : 0 <= wrap_uint64 z < 2 ^ 64.
Proof. unfold wrap_uint64. apply Z.mod_pos_bound. lia. Qed.

Lemma wrap_uint64_succ z n :
  wrap_uint64 (wrap_uint64 (z + 1) + n) = wrap_uint64 (z + (1 + n)).
Proof.
  unfold wrap_uint64. rewrite Zplus_mod_idemp_l. f_equal. lia.
Qed.

(** X1. Whatever happens to the orders (stored, dropped at capacity or
    rejected for their ticker), a run moves [globalTimestamp] forward by
    exactly the number of [addOrder] calls, modulo 2^64; matching passes
    do not touch it. *)
Theorem run_counts_submissions ops s s' out :
  0 <= globalTimestamp s < 2 ^ 64 ->
  run ops s = Ok (s', out) ->
  globalTimestamp s' =
  wrap_uint64 (globalTimestamp s + Z.of_nat (submissions ops)).
Proof.
  revert s s' out. induction ops as [|op ops IH]; intros s s' out Hg H; simpl in H.
  - simplify_eq. simpl. unfold wrap_uint64. rewrite Z.mod_small; lia.
  - destruct (step op s) as [[s1 out1]| |] eqn:Hstep; simpl in H; try done.
    destruct (run ops s1) as [[s2 out2]| |] eqn:Hrun; simpl in H; try done.
    simplify_eq.
    apply step_cases in Hstep
      as [(b & t & q & p & -> & _ & _ & ->)
         |[(b & t & q & p & book & book' & -> & _ & _ & _ & _ & ->)
          |(fuel & t & book & book' & -> & _ & _ & _ & ->)]];
      (eapply IH in Hrun; [|simpl; first [apply wrap_uint64_range|done]]);
      rewrite Hrun; simpl.
    + rewrite wrap_uint64_succ. f_equal. lia.
    + rewrite wrap_uint64_succ. f_equal. lia.
    + done.
Qed.

Lemma run_counts_submissions_witness :
  globalTimestamp (outcome (initial, []) (run scenarioC_ops scenarioC_engine)).1 =
  wrap_uint64 (globalTimestamp scenarioC_engine +
               Z.of_nat (submissions scenarioC_ops)).
Proof.
  apply (run_counts_submissions scenarioC_ops scenarioC_engine
           (outcome (initial, []) (run scenarioC_ops scenarioC_engine)).1
           (outcome (initial, []) (run scenarioC_ops scenarioC_engine)).2).
  - simpl. lia.
  - reflexivity.
Defined.

(** ** One call works on one book *)

(** X2. A call of [addOrder] or [matchOrdersForTicker] leaves the books of
    all other tickers, and the number of books, as they were. *)
Theorem step_touches_one_book op s s' out :
  step op s = Ok (s', out) ->
  length (tickers s') = length (tickers s) /\
  forall t', Z.of_nat t' <> op_ticker op -> tickers s' !! t' = tickers s !! t'.
Proof.
  intros H.
  apply step_cases in H
    as [(b & t & q & p & -> & _ & _ & ->)
       |[(b & t & q & p & book & book' & -> & Ht & _ & _ & _ & ->)
        |(fuel & t & book & book' & -> & Ht & _ & _ & ->)]]; simpl.
  - done.
  - rewrite length_insert. split; [done|]. intros t' Ht'.
    apply list_lookup_insert_ne. lia.
  - rewrite length_insert. split; [done|]. intros t' Ht'.
    apply list_lookup_insert_ne. lia.
Qed.

Lemma step_touches_one_book_witness :
  length (tickers (outcome (initial, [])
                     (step (MatchPass 3 3) scenarioC_engine)).1) =
    length (tickers scenarioC_engine) /\
  forall t', Z.of_nat t' <> op_ticker (MatchPass 3 3) ->
    tickers (outcome (initial, [])
               (step (MatchPass 3 3) scenarioC_engine)).1 !! t' =
    tickers scenarioC_engine !! t'.
Proof.
  apply (step_touches_one_book (MatchPass 3 3) scenarioC_engine
           (outcome (initial, []) (step (MatchPass 3 3) scenarioC_engine)).1
           (outcome (initial, []) (step (MatchPass 3 3) scenarioC_engine)).2).
  reflexivity.
Defined.

(** ** The three outcomes of an accepted ticker *)

Lemma addOrder_on_book isBuy t q p s book :
  0 <= t < NUM_TICKERS ->
  tickers s !! Z.to_nat t = Some book ->
  forall book',
    addOrderBook isBuy t q p (globalTimestamp s) book = Ok book' ->
    addOrder isBuy t q p s =
    Ok {| globalTimestamp := wrap_uint64 (globalTimestamp s + 1);
          tickers := <[Z.to_nat t := book']> (tickers s) |}.
Proof.
  intros Ht Hbook book' Hadd.
  rewrite (addOrder_accepted isBuy t q p s book) by done. by rewrite Hadd.
Qed.

(** X3. Insert and look up: a submission for a valid ticker that finds the
    side counter below the capacity is stored, with exactly the submitted
    side, ticker, quantity and price and the time stamp cut to 32 bits, in
    the slot the counter named; the counter moves by one and every other
    slot, the other side and its counter stay as they were. *)
Theorem addOrder_stores_order isBuy t q p s book :
  0 <= t < NUM_TICKERS ->
  tickers s !! Z.to_nat t = Some book ->
  length (side_orders isBuy book) = Z.to_nat MAX_ORDERS_PER_SIDE ->
  0 <= side_count isBuy book < MAX_ORDERS_PER_SIDE ->
  exists s' book',
    addOrder isBuy t q p s = Ok s' /\
    tickers s' !! Z.to_nat t = Some book' /\
    side_orders isBuy book' !! Z.to_nat (side_count isBuy book) =
      Some (Some (mkOrder isBuy t q p (wrap_uint32 (globalTimestamp s)))) /\
    (forall k, k <> Z.to_nat (side_count isBuy book) ->
       side_orders isBuy book' !! k = side_orders isBuy book !! k) /\
    side_count isBuy book' = side_count isBuy book + 1 /\
    side_orders (negb isBuy) book' = side_orders (negb isBuy) book /\
    side_count (negb isBuy) book' = side_count (negb isBuy) book.
Proof.
  intros Ht Hbook Hlen Hc. unfold MAX_ORDERS_PER_SIDE in *.
  assert (Hadd : addOrderBook isBuy t q p (globalTimestamp s) book =
    Ok (with_side isBuy
          (<[Z.to_nat (side_count isBuy book) :=
               Some (newOrder isBuy t q p (globalTimestamp s))]>
             (side_orders isBuy book))
          (side_count isBuy book + 1) book)).
  { rewrite addOrderBook_side. unfold MAX_ORDERS_PER_SIDE, array_set.
    destruct (Z.ltb_spec (side_count isBuy book) 1024); [|lia].
    destruct (Z.leb_spec 0 (side_count isBuy book)); [|lia].
    destruct (Z.ltb_spec (side_count isBuy book)
                (Z.of_nat (length (side_orders isBuy book)))); [|lia].
    simpl. rewrite wrap_int_succ by lia. done. }
  eexists _, _. split; [by apply (addOrder_on_book _ _ _ _ _ book)|].
  simpl. split; [apply list_lookup_insert_eq; by eapply lookup_lt_Some|].
  rewrite !side_orders_with_side, !side_count_with_side.
  destruct (decide (isBuy = isBuy)); [|done].
  destruct (decide (negb isBuy = isBuy)); [by destruct isBuy|].
  repeat split; try done.
  - apply list_lookup_insert_eq. lia.
  - intros k Hk. by apply list_lookup_insert_ne.
Qed.

Lemma addOrder_stores_order_witness :
  exists s' book',
    addOrder false 3 10 (double_of_Z 90) initial = Ok s' /\
    tickers s' !! Z.to_nat 3 = Some book' /\
    side_orders false book' !! Z.to_nat (side_count false emptyBook) =
      Some (Some (mkOrder false 3 10 (double_of_Z 90)
                    (wrap_uint32 (globalTimestamp initial)))) /\
    (forall k, k <> Z.to_nat (side_count false emptyBook) ->
       side_orders false book' !! k = side_orders false emptyBook !! k) /\
    side_count false book' = side_count false emptyBook + 1 /\
    side_orders (negb false) book' = side_orders (negb false) emptyBook /\
    side_count (negb false) book' = side_count (negb false) emptyBook.
Proof.
  apply (addOrder_stores_order false 3 10 (double_of_Z 90) initial emptyBook).
  - unfold NUM_TICKERS. lia.
  - reflexivity.
  - reflexivity.
  - simpl. unfold MAX_ORDERS_PER_SIDE. lia.
Defined.

(** X4. At capacity the order is stored nowhere: a submission for a valid
    ticker that finds the side counter at or above 1024 (and below
    [INT_MAX]) leaves both arrays of the book as they were and only moves
    that side's counter, and the time stamp counter, by one. *)
Theorem addOrder_drops_at_capacity isBuy t q p s book :
  0 <= t < NUM_TICKERS ->
  tickers s !! Z.to_nat t = Some book ->
  MAX_ORDERS_PER_SIDE <= side_count isBuy book < 2 ^ 31 - 1 ->
  exists s' book',
    addOrder isBuy t q p s = Ok s' /\
    globalTimestamp s' = wrap_uint64 (globalTimestamp s + 1) /\
    tickers s' !! Z.to_nat t = Some book' /\
    buyOrders book' = buyOrders book /\
    sellOrders book' = sellOrders book /\
    side_count isBuy book' = side_count isBuy book + 1 /\
    side_count (negb isBuy) book' = side_count (negb isBuy) book.
Proof.
  intros Ht Hbook Hc. unfold MAX_ORDERS_PER_SIDE in *.
  assert (Hadd : addOrderBook isBuy t q p (globalTimestamp s) book =
    Ok (with_side isBuy (side_orders isBuy book)
          (side_count isBuy book + 1) book)).
  { rewrite addOrderBook_side. unfold MAX_ORDERS_PER_SIDE.
    destruct (Z.ltb_spec (side_count isBuy book) 1024); [lia|].
    rewrite wrap_int_succ by lia. done. }
  eexists _, _. split; [by apply (addOrder_on_book _ _ _ _ _ book)|].
  simpl. split; [done|].
  split; [apply list_lookup_insert_eq; by eapply lookup_lt_Some|].
  by destruct isBuy.
Qed.

Lemma addOrder_drops_at_capacity_witness :
  exists s' book',
    addOrder true 0 5 (double_of_Z 7) fullEngine = Ok s' /\
    globalTimestamp s' = wrap_uint64 (globalTimestamp fullEngine + 1) /\
    tickers s' !! Z.to_nat 0 = Some book' /\
    buyOrders book' = buyOrders fullBook /\
    sellOrders book' = sellOrders fullBook /\
    side_count true book' = side_count true fullBook + 1 /\
    side_count (negb true) book' = side_count (negb true) fullBook.
Proof.
  apply (addOrder_drops_at_capacity true 0 5 (double_of_Z 7) fullEngine fullBook).
  - unfold NUM_TICKERS. lia.
  - vm_compute. reflexivity.
  - replace (side_count true fullBook) with 1024 by (vm_compute; reflexivity).
    unfold MAX_ORDERS_PER_SIDE. lia.
Defined.

(** X5. [addOrder] for a valid ticker goes outside the array exactly when
    the side counter is negative: with a counter of zero or more it
    returns, with a negative one the test [index < MAX_ORDERS_PER_SIDE]
    passes and the store is out of bounds. *)
Theorem addOrder_fails_on_negative_counter isBuy t q p s book :
  0 <= t < NUM_TICKERS ->
  tickers s !! Z.to_nat t = Some book ->
  length (side_orders isBuy book) = Z.to_nat MAX_ORDERS_PER_SIDE ->
  (side_count isBuy book < 0 -> addOrder isBuy t q p s = OutOfBounds) /\
  (0 <= side_count isBuy book -> exists s', addOrder isBuy t q p s = Ok s').
Proof.
  intros Ht Hbook Hlen. unfold MAX_ORDERS_PER_SIDE in *.
  rewrite (addOrder_accepted isBuy t q p s book) by done.
  rewrite addOrderBook_side. unfold MAX_ORDERS_PER_SIDE, array_set. split; intros Hc.
  - destruct (Z.ltb_spec (side_count isBuy book) 1024); [|lia].
    destruct (Z.leb_spec 0 (side_count isBuy book)); [lia|]. done.
  - destruct (Z.ltb_spec (side_count isBuy book) 1024); [|simpl; eauto].
    destruct (Z.leb_spec 0 (side_count isBuy book)); [|lia].
    destruct (Z.ltb_spec (side_count isBuy book)
                (Z.of_nat (length (side_orders isBuy book)))); [|lia].
    simpl. eauto.
Qed.

Lemma addOrder_fails_on_negative_counter_witness :
  (side_count true emptyBook < 0 ->
   addOrder true 3 1 (double_of_Z 1) initial = OutOfBounds) /\
  (0 <= side_count true emptyBook ->
   exists s', addOrder true 3 1 (double_of_Z 1) initial = Ok s').
Proof.
  apply (addOrder_fails_on_negative_counter true 3 1 (double_of_Z 1)
           initial emptyBook).
  - unfold NUM_TICKERS. lia.
  - reflexivity.
  - reflexivity.
Defined.

(** ** What a pass does and does not do *)

(** X6. A pass runs to a fixed point: right after a pass on a ticker has
    returned, another pass on the same ticker, with any fuel, prints no
    trade and leaves the engine exactly as it is. *)
Theorem second_pass_is_silent fuel fuel' t s s' trades :
  matchOrdersForTicker fuel t s = Ok (s', trades) ->
  matchOrdersForTicker (S fuel') t s' = Ok (s', []).
Proof.
  intros H.
  apply (step_cases (MatchPass fuel t)) in H
    as [(? & ? & ? & ? & ? & _)
       |[(? & ? & ? & ? & ? & ? & ? & _)
        |(f & t0 & book & book' & [= <- <-] & Ht & Hbook & Hloop & ->)]];
    try done.
  apply matchLoop_exit in Hloop as Hexit.
  unfold matchOrdersForTicker, array_get. simpl.
  destruct (Z.leb_spec 0 t); [|lia].
  rewrite list_lookup_insert_eq by (by eapply lookup_lt_Some).
  simpl. rewrite Hexit. simpl.
  rewrite list_insert_insert_eq. done.
Qed.

Lemma second_pass_is_silent_witness :
  matchOrdersForTicker 1 3
    (outcome (initial, []) (matchOrdersForTicker 3 3 scenarioC_engine)).1 =
  Ok ((outcome (initial, []) (matchOrdersForTicker 3 3 scenarioC_engine)).1, []).
Proof.
  apply (second_pass_is_silent 3 0 3 scenarioC_engine
           (outcome (initial, []) (matchOrdersForTicker 3 3 scenarioC_engine)).1
           (outcome (initial, []) (matchOrdersForTicker 3 3 scenarioC_engine)).2).
  reflexivity.
Defined.

Lemma matchIteration_shape tickerIndex book book' tr :
  matchIteration tickerIndex book = Ok (Some (book', tr)) ->
  buyCount book' = buyCount book /\ sellCount book' = sellCount book /\
  is_null <$> buyOrders book' = is_null <$> buyOrders book /\
  is_null <$> sellOrders book' = is_null <$> sellOrders book.
Proof.
  intros Hit.
  destruct (matchIteration_cross _ _ _ _ Hit)
    as (bi & si & b & s & _ & _ & [Hbl _] & [Hsl _] & _ & Heq).
  unfold crossed in Heq. simplify_eq. simpl.
  repeat split; try done; eapply null_insert_occupied; eassumption.
Qed.

Lemma pass_shape fuel tickerIndex book book' trades :
  matchLoop fuel tickerIndex book = Ok (book', trades) ->
  buyCount book' = buyCount book /\ sellCount book' = sellCount book /\
  is_null <$> buyOrders book' = is_null <$> buyOrders book /\
  is_null <$> sellOrders book' = is_null <$> sellOrders book.
Proof.
  revert book book' trades.
  induction fuel as [|fuel IH]; intros book book' trades H; simpl in H; [done|].
  destruct (matchIteration tickerIndex book) as [[[book1 tr]|]| |] eqn:Hit;
    simpl in H; try done; [|by simplify_eq].
  destruct (matchLoop fuel tickerIndex book1) as [[book2 ts]| |] eqn:Hrest;
    simpl in H; try done. simplify_eq.
  destruct (matchIteration_shape _ _ _ _ Hit) as (E1 & E2 & E3 & E4).
  destruct (IH _ _ _ Hrest) as (F1 & F2 & F3 & F4).
  repeat split; congruence.
Qed.

(** X7. A pass neither publishes nor removes an order and never moves a
    counter: after it, both counters are the same and every slot that was
    null is null, every slot that held an order still holds one. *)
Theorem pass_keeps_slots_and_counters fuel tickerIndex book book' trades :
  matchLoop fuel tickerIndex book = Ok (book', trades) ->
  buyCount book' = buyCount book /\ sellCount book' = sellCount book /\
  is_null <$> buyOrders book' = is_null <$> buyOrders book /\
  is_null <$> sellOrders book' = is_null <$> sellOrders book.
Proof. apply pass_shape. Qed.

Lemma pass_keeps_slots_and_counters_witness :
  buyCount scenarioC_book = buyCount scenarioC_before /\
  sellCount scenarioC_book = sellCount scenarioC_before /\
  is_null <$> buyOrders scenarioC_book = is_null <$> buyOrders scenarioC_before /\
  is_null <$> sellOrders scenarioC_book = is_null <$> sellOrders scenarioC_before.
Proof.
  apply (pass_keeps_slots_and_counters 3 3 scenarioC_before scenarioC_book
           [ mkTrade 3 10 (double_of_Z 90); mkTrade 3 10 (double_of_Z 95) ]).
  vm_compute. reflexivity.
Defined.

Lemma totalQuantity_insert (orders : list (option Order)) i o o' :
  orders !! i = Some (Some o) ->
  totalQuantity (<[i := Some o']> orders) =
  totalQuantity orders - quantity o + quantity o'.
Proof.
  revert i. induction orders as [|x rest IH]; intros [|i] Hi; simpl in *;
    try done.
  - simplify_eq. lia.
  - specialize (IH i Hi). destruct x; lia.
Qed.

Lemma matchIteration_decrement tickerIndex book book' tr :
  uint32_book book = true ->
  matchIteration tickerIndex book = Ok (Some (book', tr)) ->
  exists bi si b s,
    buyOrders book !! bi = Some (Some b) /\
    sellOrders book !! si = Some (Some s) /\
    0 < trade_quantity tr /\
    buyOrders book' =
      <[bi := Some (with_quantity b (quantity b - trade_quantity tr))]>
        (buyOrders book) /\
    sellOrders book' =
      <[si := Some (with_quantity s (quantity s - trade_quantity tr))]>
        (sellOrders book).
Proof.
  intros Hu Hit. apply andb_prop in Hu as [Hub Hus].
  destruct (matchIteration_cross _ _ _ _ Hit)
    as (bi & si & b & s & _ & _ & [Hbl Hbq] & [Hsl Hsq] & _ & Heq).
  pose proof (uint32_slot _ _ _ Hub Hbl) as Hbr.
  pose proof (uint32_slot _ _ _ Hus Hsl) as Hsr.
  exists bi, si, b, s. unfold crossed in Heq. simplify_eq. simpl.
  unfold is_uint32 in *.
  destruct (Z.ltb_spec (quantity b) (quantity s));
    rewrite !wrap_uint32_id by (unfold is_uint32; lia);
    repeat split; try done; lia.
Qed.

Lemma matchLoop_conserves fuel tickerIndex :
  forall book book' trades,
    uint32_book book = true ->
    matchLoop fuel tickerIndex book = Ok (book', trades) ->
    totalQuantity (buyOrders book) =
      totalQuantity (buyOrders book') + tradedQuantity trades /\
    totalQuantity (sellOrders book) =
      totalQuantity (sellOrders book') + tradedQuantity trades.
Proof.
  induction fuel as [|fuel IH]; intros book book' trades Hu H; simpl in H; [done|].
  destruct (matchIteration tickerIndex book) as [[[book1 tr]|]| |] eqn:Hit;
    simpl in H; try done; [|simplify_eq; simpl; lia].
  destruct (matchLoop fuel tickerIndex book1) as [[book2 ts]| |] eqn:Hrest;
    simpl in H; try done. simplify_eq. simpl.
  pose proof (matchIteration_uint32 _ _ _ _ Hu Hit) as Hu1.
  destruct (IH _ _ _ Hu1 Hrest) as [Eb Es].
  destruct (matchIteration_decrement _ _ _ _ Hu Hit)
    as (bi & si & b & s & Hbl & Hsl & Hq & Eb1 & Es1).
  rewrite Eb1 in Eb. rewrite Es1 in Es.
  rewrite (totalQuantity_insert _ _ _ _ Hbl) in Eb.
  rewrite (totalQuantity_insert _ _ _ _ Hsl) in Es.
  simpl in Eb, Es. lia.
Qed.

(** X8. Conservation within the arrays: on a book whose counters do not
    exceed the array lengths and whose quantities are [uint32_t] values,
    the pass returns with any fuel above the number of orders that can
    still trade, and whenever it returns the quantity taken off the buy
    side equals the quantity taken off the sell side equals the sum of
    the quantities of the trades printed. *)
Theorem pass_conserves_quantity tickerIndex book :
  in_bounds book = true ->
  uint32_book book = true ->
  (exists book' trades,
     forall fuel, (eligibleOrders book < fuel)%nat ->
       matchLoop fuel tickerIndex book = Ok (book', trades)) /\
  forall fuel book' trades,
    matchLoop fuel tickerIndex book = Ok (book', trades) ->
    totalQuantity (buyOrders book) =
      totalQuantity (buyOrders book') + tradedQuantity trades /\
    totalQuantity (sellOrders book) =
      totalQuantity (sellOrders book') + tradedQuantity trades.
Proof.
  intros Hin Hu. split.
  - destruct (matchLoop_terminates tickerIndex (eligibleOrders book) book Hin
                (Nat.le_refl _)) as (book' & trades & _ & Hloop).
    by exists book', trades.
  - intros fuel book' trades. by apply matchLoop_conserves.
Qed.

Lemma pass_conserves_quantity_witness :
  totalQuantity (buyOrders scenarioC_before) =
    totalQuantity (buyOrders scenarioC_book) +
    tradedQuantity [ mkTrade 3 10 (double_of_Z 90); mkTrade 3 10 (double_of_Z 95) ] /\
  totalQuantity (sellOrders scenarioC_before) =
    totalQuantity (sellOrders scenarioC_book) +
    tradedQuantity [ mkTrade 3 10 (double_of_Z 90); mkTrade 3 10 (double_of_Z 95) ].
Proof.
  apply (proj2 (pass_conserves_quantity 3 scenarioC_before eq_refl eq_refl)
           3%nat scenarioC_book).
  vm_compute. reflexivity.
Defined.

(** ** The trades of a pass *)

Lemma matchIteration_trade tickerIndex book book' tr :
  matchIteration tickerIndex book = Ok (Some (book', tr)) ->
  trade_ticker tr = tickerIndex /\ 0 < trade_quantity tr /\
  SFltb (trade_price tr) lowestSellPrice0 = true /\
  sellCount book' = sellCount book /\
  exists si s q,
    scanSell book = Ok (Some si) /\ eligible (sellOrders book) si s /\
    price s = trade_price tr /\
    sellOrders book' = <[si := Some (with_quantity s q)]> (sellOrders book).
Proof.
  intros Hit.
  destruct (matchIteration_cross _ _ _ _ Hit)
    as (bi & si & b & s & _ & Hs & [Hbl Hbq] & [Hsl Hsq] & _ & Heq).
  destruct (scanSell_selected _ _ Hs) as (_ & s' & [Hsl' _] & Hp0 & _).
  assert (s' = s) as -> by congruence.
  unfold crossed in Heq. simplify_eq. simpl.
  repeat split; try done.
  - destruct (quantity b <? quantity s); done.
  - eexists si, s, _. repeat split; done.
Qed.

Lemma matchLoop_trades tickerIndex fuel :
  forall book book' trades,
    matchLoop fuel tickerIndex book = Ok (book', trades) ->
    Forall (fun tr => trade_ticker tr = tickerIndex /\ 0 < trade_quantity tr /\
                      SFltb (trade_price tr) lowestSellPrice0 = true) trades /\
    (length trades + eligibleOrders book' <= eligibleOrders book)%nat.
Proof.
  induction fuel as [|fuel IH]; intros book book' trades H; simpl in H; [done|].
  destruct (matchIteration tickerIndex book) as [[[book1 tr]|]| |] eqn:Hit;
    simpl in H; try done; [|simplify_eq; split; [constructor|simpl; lia]].
  destruct (matchLoop fuel tickerIndex book1) as [[book2 ts]| |] eqn:Hrest;
    simpl in H; try done. simplify_eq. simpl.
  destruct (IH _ _ _ Hrest) as [Hall Hlen].
  destruct (matchIteration_trade _ _ _ _ Hit) as (Ht & Hq & Hp & _).
  destruct (matchIteration_decreases _ _ _ _ Hit) as (Hlt & _).
  split; [by constructor|lia].
Qed.

(** X9. Every trade a pass prints carries the ticker of the pass, a
    quantity of at least one and a price below 1e9; and a pass prints no
    more trades than the number of orders it takes out of the eligible
    ones (each cross fills at least one order completely). *)
Theorem pass_trades_well_formed fuel tickerIndex book book' trades :
  matchLoop fuel tickerIndex book = Ok (book', trades) ->
  Forall (fun tr => trade_ticker tr = tickerIndex /\ 0 < trade_quantity tr /\
                    SFltb (trade_price tr) lowestSellPrice0 = true) trades /\
  (length trades + eligibleOrders book' <= eligibleOrders book)%nat.
Proof. apply matchLoop_trades. Qed.

Lemma pass_trades_well_formed_witness :
  Forall (fun tr => trade_ticker tr = 3 /\ 0 < trade_quantity tr /\
                    SFltb (trade_price tr) lowestSellPrice0 = true)
         [ mkTrade 3 10 (double_of_Z 90); mkTrade 3 10 (double_of_Z 95) ] /\
  (length [ mkTrade 3 10 (double_of_Z 90); mkTrade 3 10 (double_of_Z 95) ] +
   eligibleOrders scenarioC_book <= eligibleOrders scenarioC_before)%nat.
Proof.
  apply (pass_trades_well_formed 3 3 scenarioC_before scenarioC_book).
  vm_compute. reflexivity.
Defined.

Lemma eligible_before_cross (orders : list (option Order)) si s q k o' :
  eligible orders si s ->
  eligible (<[si := Some (with_quantity s q)]> orders) k o' ->
  exists o, eligible orders k o /\ price o = price o'.
Proof.
  intros Hs [Hk Hq]. destruct (decide (k = si)) as [->|Hne].
  - rewrite list_lookup_insert_eq in Hk
      by (destruct Hs as [Hs _]; by eapply lookup_lt_Some).
    simplify_eq. exists s. done.
  - rewrite list_lookup_insert_ne in Hk by done. exists o'. done.
Qed.

(** Every trade's price is the price of a sell order that was eligible,
    in a scanned slot, when the pass began. *)
Lemma matchLoop_trade_source tickerIndex fuel :
  forall book book' trades,
    matchLoop fuel tickerIndex book = Ok (book', trades) ->
    forall tr, tr ∈ trades ->
      exists k o, (k < Z.to_nat (sellCount book))%nat /\
                  eligible (sellOrders book) k o /\ price o = trade_price tr.
Proof.
  induction fuel as [|fuel IH]; intros book book' trades H tr Hin;
    simpl in H; [done|].
  destruct (matchIteration tickerIndex book) as [[[book1 tr1]|]| |] eqn:Hit;
    simpl in H; try done; [|simplify_eq; by apply not_elem_of_nil in Hin].
  destruct (matchLoop fuel tickerIndex book1) as [[book2 ts]| |] eqn:Hrest;
    simpl in H; try done. simplify_eq. simpl in Hin.
  destruct (matchIteration_trade _ _ _ _ Hit)
    as (_ & _ & _ & Hcount & si & s & q & Hscan & Hsel & Hprice & Hsells).
  destruct (scanSell_selected _ _ Hscan) as (Hsi & _).
  apply elem_of_cons in Hin as [->|Hin].
  - exists si, s. done.
  - destruct (IH _ _ _ Hrest tr Hin) as (k & o' & Hk & Hel & Hp).
    rewrite Hsells in Hel. rewrite Hcount in Hk.
    destruct (eligible_before_cross _ _ _ _ _ _ Hsel Hel) as (o & Ho & Hpo).
    exists k, o. split; [done|]. split; [done|]. congruence.
Qed.

Lemma matchLoop_sorted tickerIndex fuel :
  forall book book' trades,
    matchLoop fuel tickerIndex book = Ok (book', trades) ->
    forall i j tr1 tr2,
      (i < j)%nat -> trades !! i = Some tr1 -> trades !! j = Some tr2 ->
      SFleb (trade_price tr1) (trade_price tr2) = true.
Proof.
  induction fuel as [|fuel IH]; intros book book' trades H i j tr1 tr2 Hij H1 H2;
    simpl in H; [done|].
  destruct (matchIteration tickerIndex book) as [[[book1 tr]|]| |] eqn:Hit;
    simpl in H; try done; [|by simplify_eq].
  destruct (matchLoop fuel tickerIndex book1) as [[book2 ts]| |] eqn:Hrest;
    simpl in H; try done. simplify_eq. simpl in *.
  destruct j as [|j]; [lia|]. simpl in H2.
  destruct i as [|i]; simpl in H1.
  - simplify_eq.
    destruct (matchIteration_trade _ _ _ _ Hit)
      as (_ & _ & Hp1 & Hcount & si & s & q & Hscan & Hsel & Hprice & Hsells).
    destruct (scanSell_selected _ _ Hscan)
      as (_ & s' & [Hsl' _] & _ & Hlow & _).
    assert (s' = s) as -> by (destruct Hsel; congruence).
    assert (Hin : tr2 ∈ ts) by (by eapply list_elem_of_lookup_2).
    destruct (matchLoop_trade_source _ _ _ _ _ Hrest tr2 Hin)
      as (k & o' & Hk & Hel & Hp).
    rewrite Hsells in Hel. rewrite Hcount in Hk.
    destruct (eligible_before_cross _ _ _ _ _ _ Hsel Hel) as (o & Ho & Hpo).
    specialize (Hlow k o Hk Ho).
    destruct (matchLoop_trades _ _ _ _ _ Hrest) as [Hall _].
    rewrite Forall_forall in Hall. destruct (Hall tr2 Hin) as (_ & _ & Hp2).
    rewrite <- Hprice. rewrite <- Hprice in Hp1.
    rewrite <- Hp, <- Hpo in *.
    destruct (SFltb_comparable _ _ Hp1) as [Hc1 _].
    destruct (SFltb_comparable _ _ Hp2) as [Hc2 _].
    by apply SFleb_total.
  - eapply (IH _ _ _ Hrest i j); [lia|done..].
Qed.

(** X10. Best price first: within one pass the trades are printed in
    order of non-decreasing price. *)
Theorem pass_trades_sorted_by_price fuel tickerIndex book book' trades :
  matchLoop fuel tickerIndex book = Ok (book', trades) ->
  forall i j tr1 tr2,
    (i < j)%nat -> trades !! i = Some tr1 -> trades !! j = Some tr2 ->
    SFleb (trade_price tr1) (trade_price tr2) = true.
Proof. apply matchLoop_sorted. Qed.

Lemma pass_trades_sorted_by_price_witness :
  SFleb (trade_price (mkTrade 3 10 (double_of_Z 90)))
        (trade_price (mkTrade 3 10 (double_of_Z 95))) = true.
Proof.
  apply (pass_trades_sorted_by_price 3 3 scenarioC_before scenarioC_book
           [ mkTrade 3 10 (double_of_Z 90); mkTrade 3 10 (double_of_Z 95) ]
           ltac:(vm_compute; reflexivity) 0%nat 1%nat).
  - lia.
  - reflexivity.
  - reflexivity.
Defined.

(** ** What the scans select *)

(** X11. The sell scan, when it returns a slot, returns an eligible order
    priced below 1e9 that no scanned eligible order undercuts and that no
    eligible order in a lower slot equals or undercuts; when it returns
    [nullptr], no scanned eligible order is priced below 1e9. *)
Theorem sell_scan_selects_lowest book r :
  scanSell book = Ok r ->
  match r with
  | Some k =>
      (k < Z.to_nat (sellCount book))%nat /\
      exists o, eligible (sellOrders book) k o /\
        SFltb (price o) lowestSellPrice0 = true /\
        (forall j oj, (j < Z.to_nat (sellCount book))%nat ->
           eligible (sellOrders book) j oj -> SFltb (price oj) (price o) = false) /\
        (forall j oj, (j < k)%nat ->
           eligible (sellOrders book) j oj -> SFleb (price oj) (price o) = false)
  | None =>
      forall j oj, (j < Z.to_nat (sellCount book))%nat ->
        eligible (sellOrders book) j oj ->
        SFltb (price oj) lowestSellPrice0 = false
  end.
Proof.
  intros H. destruct r as [k|].
  - by apply scanSell_selected.
  - by apply scanSell_nothing.
Qed.

Lemma sell_scan_selects_lowest_witness :
  (0 < Z.to_nat (sellCount scenarioC_before))%nat /\
  exists o, eligible (sellOrders scenarioC_before) 0 o /\
    SFltb (price o) lowestSellPrice0 = true /\
    (forall j oj, (j < Z.to_nat (sellCount scenarioC_before))%nat ->
       eligible (sellOrders scenarioC_before) j oj ->
       SFltb (price oj) (price o) = false) /\
    (forall j oj, (j < 0)%nat ->
       eligible (sellOrders scenarioC_before) j oj ->
       SFleb (price oj) (price o) = false).
Proof.
  apply (sell_scan_selects_lowest scenarioC_before (Some 0%nat)).
  vm_compute. reflexivity.
Defined.

(** X12. The buy scan, when it returns a slot, returns an eligible order
    priced above -1.0 that no scanned eligible order outbids and that no
    eligible order in a lower slot equals or outbids; when it returns
    [nullptr], no scanned eligible order is priced above -1.0. *)
Theorem buy_scan_selects_highest book r :
  scanBuy book = Ok r ->
  match r with
  | Some k =>
      (k < Z.to_nat (buyCount book))%nat /\
      exists o, eligible (buyOrders book) k o /\
        SFltb highestBuyPrice0 (price o) = true /\
        (forall j oj, (j < Z.to_nat (buyCount book))%nat ->
           eligible (buyOrders book) j oj -> SFltb (price o) (price oj) = false) /\
        (forall j oj, (j < k)%nat ->
           eligible (buyOrders book) j oj -> SFleb (price o) (price oj) = false)
  | None =>
      forall j oj, (j < Z.to_nat (buyCount book))%nat ->
        eligible (buyOrders book) j oj ->
        SFltb highestBuyPrice0 (price oj) = false
  end.
Proof.
  intros H. destruct r as [k|].
  - by apply scanBuy_selected.
  - by apply scanBuy_nothing.
Qed.

Lemma buy_scan_selects_highest_witness :
  (0 < Z.to_nat (buyCount scenarioC_before))%nat /\
  exists o, eligible (buyOrders scenarioC_before) 0 o /\
    SFltb highestBuyPrice0 (price o) = true /\
    (forall j oj, (j < Z.to_nat (buyCount scenarioC_before))%nat ->
       eligible (buyOrders scenarioC_before) j oj ->
       SFltb (price o) (price oj) = false) /\
    (forall j oj, (j < 0)%nat ->
       eligible (buyOrders scenarioC_before) j oj ->
       SFleb (price o) (price oj) = false).
Proof.
  apply (buy_scan_selects_highest scenarioC_before (Some 0%nat)).
  vm_compute. reflexivity.
Defined.

(** X13. When a pass on a ticker returns, no eligible buy in a scanned
    slot priced above -1.0 and eligible sell in a scanned slot priced
    below 1e9 are left crossed on that ticker's book. *)
Theorem pass_leaves_no_cross_between_sentinels fuel t s s' trades book' :
  matchOrdersForTicker fuel t s = Ok (s', trades) ->
  tickers s' !! Z.to_nat t = Some book' ->
  forall i j b sl,
    (i < Z.to_nat (buyCount book'))%nat -> (j < Z.to_nat (sellCount book'))%nat ->
    eligible (buyOrders book') i b -> eligible (sellOrders book') j sl ->
    SFltb highestBuyPrice0 (price b) = true ->
    SFltb (price sl) lowestSellPrice0 = true ->
    SFleb (price sl) (price b) = false.
Proof.
  intros H Hbook'.
  apply (step_cases (MatchPass fuel t)) in H
    as [(? & ? & ? & ? & ? & _)
       |[(? & ? & ? & ? & ? & ? & ? & _)
        |(f & t0 & book & book1 & [= <- <-] & Ht & Hbook & Hloop & ->)]];
    try done.
  simpl in Hbook'.
  rewrite list_lookup_insert_eq in Hbook' by (by eapply lookup_lt_Some).
  simplify_eq. by eapply no_cross_within_sentinels.
Qed.

Lemma pass_leaves_no_cross_between_sentinels_witness :
  SFleb (price (mkOrder false 2 80 (double_of_Z 20) 1))
        (price (mkOrder true 2 50 (double_of_Z 10) 0)) = false.
Proof.
  apply (pass_leaves_no_cross_between_sentinels 1 2 scenarioB_engine
           scenarioB_engine [] scenarioB_book
           ltac:(reflexivity) ltac:(reflexivity) 0%nat 0%nat).
  - simpl. lia.
  - simpl. lia.
  - split; [reflexivity|simpl; lia].
  - split; [reflexivity|simpl; lia].
  - vm_compute. reflexivity.
  - vm_compute. reflexivity.
Defined.

(** ** When a pass leaves the arrays *)

(** X14. One iteration of the matching loop reads outside an array
    exactly when a counter is larger than its array: if both counters are
    within the arrays it returns (a cross or the break), otherwise it is
    out of bounds. *)
Theorem iteration_in_bounds_iff tickerIndex book :
  (in_bounds book = true ->
   exists r, matchIteration tickerIndex book = Ok r) /\
  (in_bounds book = false ->
   matchIteration tickerIndex book = OutOfBounds).
Proof.
  split; [apply matchIteration_ok|].
  unfold in_bounds. intros H. apply andb_false_iff in H.
  destruct (Z.leb_spec (buyCount book) (Z.of_nat (length (buyOrders book))))
    as [Hb|Hb].
  - destruct H as [H|H]; [done|]. apply Z.leb_gt in H.
    unfold matchIteration.
    destruct (scan_in_bounds (fun p best => SFltb best p) (buyOrders book)
                (Z.to_nat (buyCount book)) 0 None highestBuyPrice0)
      as [rb Hrb]; [lia|].
    fold (scanBuy book) in Hrb. rewrite Hrb. simpl.
    unfold scanSell. rewrite scan_past_end by lia. done.
  - by apply matchIteration_past_capacity.
Qed.

(** ** Engines reached from the empty engine *)

Lemma scenarioB_engine_reached :
  (let* s1 := addOrder true 2 50 (double_of_Z 10) initial in
   addOrder false 2 80 (double_of_Z 20) s1) = Ok scenarioB_engine.
Proof. reflexivity. Qed.

Lemma run_invariant (Q : Engine -> Prop) :
  (forall op s s' out, Q s -> step op s = Ok (s', out) -> Q s') ->
  forall ops s s' out, Q s -> run ops s = Ok (s', out) -> Q s'.
Proof.
  intros Hstep. induction ops as [|op ops IH]; intros s s' out HQ H; simpl in H.
  - by simplify_eq.
  - destruct (step op s) as [[s1 out1]| |] eqn:H1; simpl in H; try done.
    destruct (run ops s1) as [[s2 out2]| |] eqn:H2; simpl in H; try done.
    simplify_eq. eauto.
Qed.

(** An invariant that holds as long as fewer than [B] calls of [addOrder]
    have been made; the time stamp counter then counts the calls. *)
Lemma run_bounded_invariant (Q : Engine -> Prop) (B : Z) :
  B < 2 ^ 64 ->
  (forall op s s' out,
     Q s -> 0 <= globalTimestamp s ->
     globalTimestamp s + Z.of_nat (submissions [op]) <= B ->
     step op s = Ok (s', out) -> Q s') ->
  forall ops s s' out,
    Q s -> 0 <= globalTimestamp s ->
    globalTimestamp s + Z.of_nat (submissions ops) <= B ->
    run ops s = Ok (s', out) ->
    Q s' /\ globalTimestamp s' = globalTimestamp s + Z.of_nat (submissions ops).
Proof.
  intros HB Hstep. induction ops as [|op ops IH];
    intros s s' out HQ Hg Hn H; simpl in H.
  - simplify_eq. simpl. split; [done|lia].
  - destruct (step op s) as [[s1 out1]| |] eqn:H1; simpl in H; try done.
    destruct (run ops s1) as [[s2 out2]| |] eqn:H2; simpl in H; try done.
    simplify_eq.
    assert (Hop : globalTimestamp s + Z.of_nat (submissions [op]) <= B).
    { destruct op; simpl in *; lia. }
    pose proof (Hstep _ _ _ _ HQ Hg Hop H1) as HQ1.
    assert (Hg1 : globalTimestamp s1 =
                  globalTimestamp s + Z.of_nat (submissions [op])).
    { apply step_cases in H1
        as [(b & t & q & p & -> & _ & _ & ->)
           |[(b & t & q & p & book & book' & -> & _ & _ & _ & _ & ->)
            |(fuel & t & book & book' & -> & _ & _ & _ & ->)]];
        simpl in *; unfold wrap_uint64; rewrite ?Z.mod_small; lia. }
    destruct (IH _ _ _ HQ1 ltac:(destruct op; simpl in *; lia)
                ltac:(destruct op; simpl in *; lia) H2) as [HQ2 Hg2].
    split; [done|]. rewrite Hg2, Hg1. destruct op; simpl; lia.
Qed.

(** Where the orders of a book come from, across one cross and a pass. *)
Lemma matchIteration_origin tickerIndex book book' tr :
  matchIteration tickerIndex book = Ok (Some (book', tr)) ->
  forall side k o',
    side_orders side book' !! k = Some (Some o') ->
    exists o, side_orders side book !! k = Some (Some o) /\
              o' = with_quantity o (quantity o').
Proof.
  intros Hit.
  destruct (matchIteration_cross _ _ _ _ Hit)
    as (bi & si & b & s & _ & _ & [Hbl _] & [Hsl _] & _ & Heq).
  unfold crossed in Heq. simplify_eq.
  intros [] k o' Hk; simpl in *.
  - destruct (decide (k = bi)) as [->|Hne].
    + rewrite list_lookup_insert_eq in Hk by (by eapply lookup_lt_Some).
      simplify_eq. exists b. done.
    + rewrite list_lookup_insert_ne in Hk by done. exists o'. by destruct o'.
  - destruct (decide (k = si)) as [->|Hne].
    + rewrite list_lookup_insert_eq in Hk by (by eapply lookup_lt_Some).
      simplify_eq. exists s. done.
    + rewrite list_lookup_insert_ne in Hk by done. exists o'. by destruct o'.
Qed.

Lemma matchLoop_origin tickerIndex fuel :
  forall book book' trades,
    matchLoop fuel tickerIndex book = Ok (book', trades) ->
    forall side k o',
      side_orders side book' !! k = Some (Some o') ->
      exists o, side_orders side book !! k = Some (Some o) /\
                o' = with_quantity o (quantity o').
Proof.
  induction fuel as [|fuel IH]; intros book book' trades H side k o' Hk;
    simpl in H; [done|].
  destruct (matchIteration tickerIndex book) as [[[book1 tr]|]| |] eqn:Hit;
    simpl in H; try done.
  - destruct (matchLoop fuel tickerIndex book1) as [[book2 ts]| |] eqn:Hrest;
      simpl in H; try done. simplify_eq.
    destruct (IH _ _ _ Hrest side k o' Hk) as (o1 & Hk1 & E1).
    destruct (matchIteration_origin _ _ _ _ Hit side k o1 Hk1) as (o & Hk0 & E0).
    exists o. split; [done|]. rewrite E1, E0. done.
  - simplify_eq. exists o'. by destruct o'.
Qed.

Lemma matchLoop_lengths tickerIndex fuel book book' trades :
  matchLoop fuel tickerIndex book = Ok (book', trades) ->
  length (buyOrders book') = length (buyOrders book) /\
  length (sellOrders book') = length (sellOrders book).
Proof.
  intros H.
  destruct (pass_shape _ _ _ _ _ H) as (_ & _ & Eb & Es).
  apply (f_equal length) in Eb, Es. rewrite !length_fmap in Eb, Es. done.
Qed.

Lemma order_at_spec s t side k o :
  order_at s t side k = Some o <->
  exists book, tickers s !! t = Some book /\
               side_orders side book !! k = Some (Some o).
Proof.
  unfold order_at. split.
  - destruct (tickers s !! t) as [book|]; [|done].
    destruct (side_orders side book !! k) as [[o0|]|] eqn:Hk; try done.
    intros [= ->]. eauto.
  - intros (book & -> & ->). done.
Qed.

(** How [addOrder] changes the book it works on. *)
Lemma addOrderBook_result isBuy t q p ts book book' :
  addOrderBook isBuy t q p ts book = Ok book' ->
  (0 <= side_count isBuy book < MAX_ORDERS_PER_SIDE /\
   side_count isBuy book < Z.of_nat (length (side_orders isBuy book)) /\
   book' = with_side isBuy
             (<[Z.to_nat (side_count isBuy book) :=
                  Some (newOrder isBuy t q p ts)]> (side_orders isBuy book))
             (wrap_int (side_count isBuy book + 1)) book) \/
  (MAX_ORDERS_PER_SIDE <= side_count isBuy book /\
   book' = with_side isBuy (side_orders isBuy book)
             (wrap_int (side_count isBuy book + 1)) book).
Proof.
  rewrite addOrderBook_side. intros H.
  destruct (Z.ltb_spec (side_count isBuy book) MAX_ORDERS_PER_SIDE).
  - left. destruct (array_set _ _ _) as [slots| |] eqn:Hset; simpl in H; try done.
    apply array_set_ok in Hset as [Hi ->]. simplify_eq.
    repeat split; try done; lia.
  - right. by simplify_eq.
Qed.

(** A property of every book is kept by a step as soon as the book the
    step works on keeps it. *)
Lemma step_books (P : nat -> TickerOrderBook -> Prop) op s s' out :
  step op s = Ok (s', out) ->
  (forall t book, tickers s !! t = Some book -> P t book) ->
  (forall b t q p book book',
     op = Submit b t q p -> 0 <= t < NUM_TICKERS ->
     tickers s !! Z.to_nat t = Some book ->
     addOrderBook b t q p (globalTimestamp s) book = Ok book' ->
     P (Z.to_nat t) book') ->
  (forall fuel t book book',
     op = MatchPass fuel t -> 0 <= t ->
     tickers s !! Z.to_nat t = Some book ->
     matchLoop fuel t book = Ok (book', out) ->
     P (Z.to_nat t) book') ->
  forall t book, tickers s' !! t = Some book -> P t book.
Proof.
  intros H Hall Hadd Hpass t0 book0 Hlook.
  apply step_cases in H
    as [(b & t & q & p & -> & _ & _ & ->)
       |[(b & t & q & p & book & book' & -> & Ht & _ & Hbook & Hab & ->)
        |(fuel & t & book & book' & -> & Ht & Hbook & Hloop & ->)]];
    simpl in Hlook.
  - eauto.
  - destruct (decide (t0 = Z.to_nat t)) as [->|Hne].
    + rewrite list_lookup_insert_eq in Hlook by (by eapply lookup_lt_Some).
      simplify_eq. eauto.
    + rewrite list_lookup_insert_ne in Hlook by done. eauto.
  - destruct (decide (t0 = Z.to_nat t)) as [->|Hne].
    + rewrite list_lookup_insert_eq in Hlook by (by eapply lookup_lt_Some).
      simplify_eq. eauto.
    + rewrite list_lookup_insert_ne in Hlook by done. eauto.
Qed.

Lemma initial_books t book :
  tickers initial !! t = Some book -> book = emptyBook.
Proof.
  change (tickers initial) with (replicate (Z.to_nat NUM_TICKERS) emptyBook).
  intros H. apply lookup_replicate in H as [-> _]. done.
Qed.

Lemma emptyBook_slots side k o :
  side_orders side emptyBook !! k = Some (Some o) -> False.
Proof.
  intros H.
  assert (E : side_orders side emptyBook =
              replicate (Z.to_nat MAX_ORDERS_PER_SIDE) None) by (by destruct side).
  rewrite E in H. apply lookup_replicate in H as [H _]. done.
Qed.

Lemma step_length op s s' out :
  step op s = Ok (s', out) -> length (tickers s') = length (tickers s).
Proof.
  intros H.
  apply step_cases in H
    as [(b & t & q & p & -> & _ & _ & ->)
       |[(b & t & q & p & book & book' & -> & _ & _ & _ & _ & ->)
        |(fuel & t & book & book' & -> & _ & _ & _ & ->)]];
    simpl; rewrite ?length_insert; done.
Qed.

Lemma addOrderBook_shape isBuy t q p ts book book' :
  book_shape book ->
  addOrderBook isBuy t q p ts book = Ok book' -> book_shape book'.
Proof.
  intros [Hb Hs] H. unfold book_shape.
  apply addOrderBook_result in H as [(_ & _ & ->)|(_ & ->)];
    destruct isBuy; simpl; rewrite ?length_insert; done.
Qed.

Lemma addOrderBook_placed isBuy t q p ts book book' :
  placed t book ->
  addOrderBook isBuy t q p ts book = Ok book' -> placed t book'.
Proof.
  intros Hp H side k o Hk.
  apply addOrderBook_result in H as [(Hc & Hlen & ->)|(_ & ->)];
    rewrite side_orders_with_side in Hk;
    destruct (decide (side = isBuy)) as [->|]; try by eapply Hp.
  destruct (decide (k = Z.to_nat (side_count isBuy book))) as [->|Hne].
  - rewrite list_lookup_insert_eq in Hk by lia. by simplify_eq.
  - rewrite list_lookup_insert_ne in Hk by done. by eapply Hp.
Qed.

Lemma matchLoop_placed fuel tickerIndex t book book' trades :
  placed t book ->
  matchLoop fuel tickerIndex book = Ok (book', trades) -> placed t book'.
Proof.
  intros Hp H side k o' Hk.
  destruct (matchLoop_origin _ _ _ _ _ H side k o' Hk) as (o & Hk0 & ->).
  by apply (Hp side k o).
Qed.

(** X15. In every engine reached from the empty engine there are 1024
    books of two 1024-slot arrays, and every stored order sits on its own
    side of the book of its own ticker: an order found in slot [k] of side
    [side] of ticker [t] has [isBuy = side] and [tickerIndex = t]. *)
Theorem reachable_orders_in_place ops s out :
  run ops initial = Ok (s, out) ->
  length (tickers s) = 1024%nat /\
  (forall t book, tickers s !! t = Some book ->
     length (buyOrders book) = 1024%nat /\ length (sellOrders book) = 1024%nat) /\
  (forall t side k o, order_at s t side k = Some o ->
     isBuy o = side /\ tickerIndex o = Z.of_nat t).
Proof.
  intros H.
  assert (HQ : length (tickers s) = 1024%nat /\
               forall t book, tickers s !! t = Some book ->
                 book_shape book /\ placed (Z.of_nat t) book).
  { revert H.
    apply (run_invariant (fun s => length (tickers s) = 1024%nat /\
             forall t book, tickers s !! t = Some book ->
               book_shape book /\ placed (Z.of_nat t) book)).
    - intros op s0 s1 out1 [Hlen Hall] Hstep. split.
      + by rewrite (step_length _ _ _ _ Hstep).
      + apply (step_books _ _ _ _ _ Hstep Hall).
        * intros b t q p book book' -> Ht Hbook Hadd.
          destruct (Hall _ _ Hbook) as [Hsh Hpl]. rewrite Z2Nat.id in * by lia.
          split; [by eapply addOrderBook_shape|by eapply addOrderBook_placed].
        * intros fuel t book book' -> Ht Hbook Hloop.
          destruct (Hall _ _ Hbook) as [[Hb Hs] Hpl].
          destruct (matchLoop_lengths _ _ _ _ _ Hloop) as [Eb Es].
          split; [split; congruence|by eapply matchLoop_placed].
    - split; [reflexivity|]. intros t book Hbook.
      apply initial_books in Hbook as ->. split; [split; reflexivity|].
      intros side k o Hk. by apply emptyBook_slots in Hk. }
  destruct HQ as [Hlen Hall]. split; [done|]. split.
  - intros t book Hbook. by destruct (Hall _ _ Hbook) as [Hsh _].
  - intros t side k o Hat. apply order_at_spec in Hat as (book & Hbook & Hk).
    destruct (Hall _ _ Hbook) as [_ Hpl]. by apply (Hpl side k o).
Qed.

Lemma reachable_orders_in_place_witness :
  length (tickers scenarioC_end) = 1024%nat /\
  (forall t book, tickers scenarioC_end !! t = Some book ->
     length (buyOrders book) = 1024%nat /\ length (sellOrders book) = 1024%nat) /\
  (forall t side k o, order_at scenarioC_end t side k = Some o ->
     isBuy o = side /\ tickerIndex o = Z.of_nat t).
Proof.
  apply (reachable_orders_in_place scenarioC_run scenarioC_end
           (outcome (initial, []) (run scenarioC_run initial)).2).
  reflexivity.
Defined.

(** Every order of the engine after a step is an order of the engine
    before it, in the same slot and with at most its quantity changed, or
    is the order just submitted, in the slot its side counter named. *)
Lemma step_order_origin op s s' out t side k o' :
  step op s = Ok (s', out) ->
  order_at s' t side k = Some o' ->
  (exists o, order_at s t side k = Some o /\
             o' = with_quantity o (quantity o')) \/
  (exists q p book,
     op = Submit side (Z.of_nat t) q p /\ Z.of_nat t < NUM_TICKERS /\
     tickers s !! t = Some book /\
     0 <= side_count side book < MAX_ORDERS_PER_SIDE /\
     k = Z.to_nat (side_count side book) /\
     o' = newOrder side (Z.of_nat t) q p (globalTimestamp s)).
Proof.
  intros H Hat. apply order_at_spec in Hat as (book1 & Hbook1 & Hk).
  apply step_cases in H
    as [(b & t0 & q & p & -> & _ & _ & ->)
       |[(b & t0 & q & p & book & book' & -> & Ht & _ & Hbook & Hab & ->)
        |(fuel & t0 & book & book' & -> & Ht & Hbook & Hloop & ->)]];
    simpl in Hbook1.
  - left. exists o'. split; [|by destruct o'].
    apply order_at_spec. eauto.
  - destruct (decide (t = Z.to_nat t0)) as [->|Hne].
    + rewrite list_lookup_insert_eq in Hbook1 by (by eapply lookup_lt_Some).
      simplify_eq.
      apply addOrderBook_result in Hab as [(Hc & Hlen & ->)|(_ & ->)];
        rewrite side_orders_with_side in Hk;
        destruct (decide (side = b)) as [->|];
        try (left; exists o'; split; [|by destruct o'];
             apply order_at_spec; by eauto).
      destruct (decide (k = Z.to_nat (side_count b book))) as [->|Hk'].
      * right. rewrite list_lookup_insert_eq in Hk by lia. simplify_eq.
        exists q, p, book. rewrite Z2Nat.id by lia. repeat split; try done; lia.
      * rewrite list_lookup_insert_ne in Hk by done.
        left; exists o'; split; [|by destruct o'].
        apply order_at_spec; by eauto.
    + rewrite list_lookup_insert_ne in Hbook1 by done.
      left; exists o'; split; [|by destruct o'].
      apply order_at_spec; by eauto.
  - destruct (decide (t = Z.to_nat t0)) as [->|Hne].
    + rewrite list_lookup_insert_eq in Hbook1 by (by eapply lookup_lt_Some).
      simplify_eq.
      destruct (matchLoop_origin _ _ _ _ _ Hloop side k o' Hk) as (o & Hk0 & E).
      left. exists o. split; [|done]. apply order_at_spec. eauto.
    + rewrite list_lookup_insert_ne in Hbook1 by done.
      left; exists o'; split; [|by destruct o'].
      apply order_at_spec; by eauto.
Qed.

(** A step never empties a slot. *)
Lemma step_order_kept op s s' out t side k o :
  fresh_engine s = true ->
  step op s = Ok (s', out) ->
  order_at s t side k = Some o ->
  exists o', order_at s' t side k = Some o' /\ timestamp o' = timestamp o /\
             price o' = price o.
Proof.
  intros Hf H Hat. apply order_at_spec in Hat as (book0 & Hbook0 & Hk).
  apply step_cases in H
    as [(b & t0 & q & p & -> & _ & _ & ->)
       |[(b & t0 & q & p & book & book' & -> & Ht & _ & Hbook & Hab & ->)
        |(fuel & t0 & book & book' & -> & Ht & Hbook & Hloop & ->)]].
  - exists o. split; [|done]. apply order_at_spec. eauto.
  - destruct (decide (t = Z.to_nat t0)) as [->|Hne].
    + simplify_eq.
      destruct (addOrderBook_keeps _ _ _ _ _ _ _
                  (forallb_lookup _ _ _ _ Hf Hbook) Hab) as [_ Hkeep].
      exists o. split; [|done]. apply order_at_spec. exists book'. simpl.
      rewrite list_lookup_insert_eq by (by eapply lookup_lt_Some). eauto.
    + exists o. split; [|done]. apply order_at_spec. exists book0. simpl.
      rewrite list_lookup_insert_ne by done. eauto.
  - destruct (decide (t = Z.to_nat t0)) as [->|Hne].
    + simplify_eq.
      assert (Hnull : is_null <$> side_orders side book' =
                      is_null <$> side_orders side book).
      { destruct (pass_shape _ _ _ _ _ Hloop) as (_ & _ & Eb & Es).
        by destruct side. }
      apply (f_equal (fun l => l !! k)) in Hnull.
      rewrite !list_lookup_fmap, Hk in Hnull. simpl in Hnull.
      destruct (side_orders side book' !! k) as [[o'|]|] eqn:Hk'; try done.
      destruct (matchLoop_origin _ _ _ _ _ Hloop side k o' Hk') as (o0 & Hk0 & E).
      assert (o0 = o) as -> by congruence.
      exists o'. split; [|by rewrite E]. apply order_at_spec. exists book'.
      simpl. rewrite list_lookup_insert_eq by (by eapply lookup_lt_Some). eauto.
    + exists o. split; [|done]. apply order_at_spec. exists book0. simpl.
      rewrite list_lookup_insert_ne by done. eauto.
Qed.

Lemma step_timestamp op s s' out :
  step op s = Ok (s', out) ->
  globalTimestamp s' =
  match op with
  | Submit _ _ _ _ => wrap_uint64 (globalTimestamp s + 1)
  | MatchPass _ _ => globalTimestamp s
  end.
Proof.
  intros H.
  apply step_cases in H
    as [(b & t & q & p & -> & _ & _ & ->)
       |[(b & t & q & p & book & book' & -> & _ & _ & _ & _ & ->)
        |(fuel & t & book & book' & -> & _ & _ & _ & ->)]]; done.
Qed.

Lemma prefix_filled_ext count (l l' : list (option Order)) :
  is_null <$> l' = is_null <$> l ->
  prefix_filled count l -> prefix_filled count l'.
Proof.
  intros E H k Hk.
  assert (Hlen : length l' = length l).
  { apply (f_equal length) in E. by rewrite !length_fmap in E. }
  rewrite <- (H k ltac:(lia)).
  apply (f_equal (fun m => m !! k)) in E. rewrite !list_lookup_fmap in E.
  split; intros [o Ho]; rewrite Ho in E; simpl in E.
  - destruct (l !! k) as [[o0|]|]; try done. eauto.
  - destruct (l' !! k) as [[o0|]|]; try done. eauto.
Qed.

Lemma addOrderBook_prefix isBuy t q p ts book book' G :
  book_shape book -> G < 2 ^ 31 - 1 ->
  (forall side, 0 <= side_count side book <= G /\
                prefix_filled (side_count side book) (side_orders side book)) ->
  addOrderBook isBuy t q p ts book = Ok book' ->
  forall side, 0 <= side_count side book' <= G + 1 /\
               prefix_filled (side_count side book') (side_orders side book').
Proof.
  intros Hsh HG Hall H side.
  assert (Hlen : length (side_orders isBuy book) = 1024%nat)
    by (destruct Hsh; by destruct isBuy).
  destruct (Hall isBuy) as [Hc Hpre]. destruct (Hall side) as [Hc' Hpre'].
  apply addOrderBook_result in H as [(Hlt & _ & ->)|(Hge & ->)];
    rewrite side_orders_with_side, side_count_with_side;
    destruct (decide (side = isBuy)) as [->|]; try (split; [lia|done]);
    rewrite wrap_int_succ by lia; (split; [lia|]).
  - intros k Hk. rewrite length_insert in Hk.
    destruct (decide (k = Z.to_nat (side_count isBuy book))) as [->|Hne].
    + rewrite list_lookup_insert_eq by lia. split; [lia|eauto].
    + rewrite list_lookup_insert_ne by done. rewrite (Hpre k Hk). lia.
  - intros k Hk. rewrite (Hpre k Hk). unfold MAX_ORDERS_PER_SIDE in *. lia.
Qed.

Lemma counted_step op s s' out :
  counted s -> 0 <= globalTimestamp s ->
  globalTimestamp s + Z.of_nat (submissions [op]) <= 2 ^ 31 - 1 ->
  step op s = Ok (s', out) -> counted s'.
Proof.
  intros HQ0 Hg0 Hb Hstep.
  pose proof (step_timestamp _ _ _ _ Hstep) as Hg1.
  assert (Hmono : globalTimestamp s <= globalTimestamp s').
  { rewrite Hg1. destruct op; simpl in Hb; [|lia].
    unfold wrap_uint64. rewrite Z.mod_small; lia. }
  unfold counted. apply (step_books _ _ _ _ _ Hstep).
  - intros t book Hbook. destruct (HQ0 _ _ Hbook) as [Hsh Hall].
    split; [done|]. intros side. destruct (Hall side). split; [lia|done].
  - intros b t q p book book' -> Ht Hbook Hadd.
    destruct (HQ0 _ _ Hbook) as [Hsh Hall].
    split; [by eapply addOrderBook_shape|].
    assert (Hg' : globalTimestamp s' = globalTimestamp s + 1).
    { rewrite Hg1. simpl in Hb. unfold wrap_uint64. rewrite Z.mod_small; lia. }
    rewrite Hg'. simpl in Hb.
    eapply (addOrderBook_prefix _ _ _ _ _ book); [done|lia|done|done].
  - intros fuel t book book' -> Ht Hbook Hloop.
    destruct (HQ0 _ _ Hbook) as [[Hb1 Hs1] Hall].
    destruct (matchLoop_lengths _ _ _ _ _ Hloop) as [Eb Es].
    destruct (pass_shape _ _ _ _ _ Hloop) as (Cb & Cs & Nb & Ns).
    split; [split; congruence|].
    intros side. destruct (Hall side) as [Hc Hpre].
    rewrite Hg1. destruct side; simpl in *.
    + rewrite Cb. split; [done|]. by eapply prefix_filled_ext.
    + rewrite Cs. split; [done|]. by eapply prefix_filled_ext.
Qed.

Lemma counted_initial : counted initial.
Proof.
  intros t book Hbook. apply initial_books in Hbook as ->.
  split; [split; reflexivity|]. intros side.
  assert (Hc : side_count side emptyBook = 0) by (by destruct side).
  rewrite Hc. split; [simpl; lia|]. intros k Hk. split; [|lia].
  intros [o Ho]. by apply emptyBook_slots in Ho.
Qed.

Lemma reachable_counters ops :
  forall s out,
    run ops initial = Ok (s, out) ->
    Z.of_nat (submissions ops) < 2 ^ 31 ->
    globalTimestamp s = Z.of_nat (submissions ops) /\
    forall t book, tickers s !! t = Some book ->
      book_shape book /\
      forall side, 0 <= side_count side book <= Z.of_nat (submissions ops) /\
                   prefix_filled (side_count side book) (side_orders side book).
Proof.
  intros s out H Hn.
  destruct (run_bounded_invariant counted (2 ^ 31 - 1) ltac:(lia)) with
    (ops := ops) (s := initial) (s' := s) (out := out) as [HQ Hg];
    [apply counted_step|apply counted_initial|simpl; lia|simpl; lia|done|].
  simpl in Hg. rewrite Z.add_0_l in Hg. split; [done|].
  intros t book Hbook. destruct (HQ _ _ Hbook) as [Hsh Hall].
  split; [done|]. intros side. rewrite <- Hg. apply Hall.
Qed.

(** X16. In every engine reached from the empty engine by fewer than 2^31
    calls of [addOrder], each side counter lies between 0 and the number
    of calls made, and the counter says which slots are taken: slot [k]
    holds an order exactly when [k] is below the counter. *)
Theorem reachable_counters_count_slots ops s out :
  run ops initial = Ok (s, out) ->
  Z.of_nat (submissions ops) < 2 ^ 31 ->
  globalTimestamp s = Z.of_nat (submissions ops) /\
  forall t book, tickers s !! t = Some book ->
    forall side,
      0 <= side_count side book <= Z.of_nat (submissions ops) /\
      forall k, (k < 1024)%nat ->
        (exists o, side_orders side book !! k = Some (Some o)) <->
        Z.of_nat k < side_count side book.
Proof.
  intros H Hn. destruct (reachable_counters _ _ _ H Hn) as [Hg Hall].
  split; [done|]. intros t book Hbook side.
  destruct (Hall _ _ Hbook) as [[Hb Hs] Hside].
  destruct (Hside side) as [Hc Hpre]. split; [done|].
  intros k Hk. apply Hpre. destruct side; simpl; [rewrite Hb|rewrite Hs]; done.
Qed.

Lemma reachable_counters_count_slots_witness :
  globalTimestamp scenarioC_end = Z.of_nat (submissions scenarioC_run) /\
  forall t book, tickers scenarioC_end !! t = Some book ->
    forall side,
      0 <= side_count side book <= Z.of_nat (submissions scenarioC_run) /\
      forall k, (k < 1024)%nat ->
        (exists o, side_orders side book !! k = Some (Some o)) <->
        Z.of_nat k < side_count side book.
Proof.
  apply (reachable_counters_count_slots scenarioC_run scenarioC_end
           (outcome (initial, []) (run scenarioC_run initial)).2).
  - reflexivity.
  - simpl. lia.
Defined.

Lemma fresh_engine_below s t book side k o :
  fresh_engine s = true ->
  tickers s !! t = Some book ->
  side_orders side book !! k = Some (Some o) ->
  0 <= side_count side book ->
  Z.of_nat k < side_count side book.
Proof.
  intros Hf Hbook Hk Hc.
  pose proof (forallb_lookup _ _ _ _ Hf Hbook) as Hfb.
  apply andb_prop in Hfb as [Hb Hs].
  destruct side; simpl in *.
  - apply fresh_slots_spec in Hb as [?|[_ Hb]]; [lia|]. by eapply Hb.
  - apply fresh_slots_spec in Hs as [?|[_ Hs]]; [lia|]. by eapply Hs.
Qed.

Lemma wrap_uint32_small z : 0 <= z < 2 ^ 32 -> wrap_uint32 z = z.
Proof. intros H. unfold wrap_uint32. by apply Z.mod_small. Qed.

Lemma reachable_timestamps ops :
  forall s out,
    run ops initial = Ok (s, out) ->
    Z.of_nat (submissions ops) <= 2 ^ 32 ->
    globalTimestamp s = Z.of_nat (submissions ops) /\
    (forall t side k o, order_at s t side k = Some o ->
       0 <= timestamp o < globalTimestamp s) /\
    (forall t1 side1 k1 o1 t2 side2 k2 o2,
       order_at s t1 side1 k1 = Some o1 -> order_at s t2 side2 k2 = Some o2 ->
       timestamp o1 = timestamp o2 -> t1 = t2 /\ side1 = side2 /\ k1 = k2) /\
    (forall t side k1 k2 o1 o2,
       (k1 < k2)%nat ->
       order_at s t side k1 = Some o1 -> order_at s t side k2 = Some o2 ->
       timestamp o1 < timestamp o2).
Proof.
  intros s out H Hn.
  pose (Q := fun s : Engine =>
    fresh_engine s = true /\
    (forall t side k o, order_at s t side k = Some o ->
       0 <= timestamp o < globalTimestamp s) /\
    (forall t1 side1 k1 o1 t2 side2 k2 o2,
       order_at s t1 side1 k1 = Some o1 -> order_at s t2 side2 k2 = Some o2 ->
       timestamp o1 = timestamp o2 -> t1 = t2 /\ side1 = side2 /\ k1 = k2) /\
    (forall t side k1 k2 o1 o2,
       (k1 < k2)%nat ->
       order_at s t side k1 = Some o1 -> order_at s t side k2 = Some o2 ->
       timestamp o1 < timestamp o2)).
  destruct (run_bounded_invariant Q (2 ^ 32) ltac:(lia)) with
    (ops := ops) (s := initial) (s' := s) (out := out) as [HQ Hg];
    [| |simpl; lia|simpl; lia|done|].
  - intros op s0 s1 out1 (Hf & HT & HU & HS) Hg0 Hb Hstep.
    pose proof (step_timestamp _ _ _ _ Hstep) as Hg1.
    assert (Hmono : globalTimestamp s0 <= globalTimestamp s1).
    { rewrite Hg1. destruct op; simpl in Hb; [|lia].
      unfold wrap_uint64. rewrite Z.mod_small; lia. }
    (* the time stamp of an order of [s1]: old, or the one just given *)
    assert (Hts : forall t side k o', order_at s1 t side k = Some o' ->
      (exists o, order_at s0 t side k = Some o /\ timestamp o' = timestamp o) \/
      (exists q p book,
         op = Submit side (Z.of_nat t) q p /\ tickers s0 !! t = Some book /\
         0 <= side_count side book /\ k = Z.to_nat (side_count side book) /\
         timestamp o' = globalTimestamp s0 /\
         globalTimestamp s1 = globalTimestamp s0 + 1)).
    { intros t side k o' Hat.
      destruct (step_order_origin _ _ _ _ _ _ _ _ Hstep Hat)
        as [(o & Ho & E)|(q & p & book & -> & _ & Hbook & Hc & -> & ->)].
      - left. exists o. split; [done|]. by rewrite E.
      - right. exists q, p, book. simpl in Hb.
        repeat split; try done; try lia.
        + simpl. apply wrap_uint32_small. lia.
        + rewrite Hg1. unfold wrap_uint64. rewrite Z.mod_small; lia. }
    split; [by destruct (step_keeps _ _ _ _ Hf Hstep)|]. split; [|split].
    + intros t side k o' Hat.
      destruct (Hts _ _ _ _ Hat)
        as [(o & Ho & ->)|(q & p & book & _ & _ & _ & _ & -> & ->)]; [|lia].
      specialize (HT _ _ _ _ Ho). lia.
    + intros t1 side1 k1 o1 t2 side2 k2 o2 H1 H2 E.
      destruct (Hts _ _ _ _ H1)
        as [(a1 & Ha1 & E1)|(q1 & p1 & b1 & Hop1 & Hb1 & _ & Hk1 & E1 & _)];
      destruct (Hts _ _ _ _ H2)
        as [(a2 & Ha2 & E2)|(q2 & p2 & b2 & Hop2 & Hb2 & _ & Hk2 & E2 & _)].
      * apply (HU _ _ _ _ _ _ _ _ Ha1 Ha2). congruence.
      * specialize (HT _ _ _ _ Ha1). lia.
      * specialize (HT _ _ _ _ Ha2). lia.
      * rewrite Hop1 in Hop2. injection Hop2 as -> Ht _ _.
        apply Nat2Z.inj in Ht as ->. simplify_eq. done.
    + intros t side k1 k2 o1 o2 Hlt H1 H2.
      destruct (Hts _ _ _ _ H1)
        as [(a1 & Ha1 & E1)|(q1 & p1 & b1 & Hop1 & Hb1 & Hc1 & Hk1 & E1 & _)];
      destruct (Hts _ _ _ _ H2)
        as [(a2 & Ha2 & E2)|(q2 & p2 & b2 & Hop2 & Hb2 & Hc2 & Hk2 & E2 & _)].
      * rewrite E1, E2. by eapply HS.
      * specialize (HT _ _ _ _ Ha1). lia.
      * apply order_at_spec in Ha2 as (book2 & Hbook2 & Hslot2).
        assert (book2 = b1) as -> by congruence.
        pose proof (fresh_engine_below _ _ _ _ _ _ Hf Hbook2 Hslot2 Hc1). lia.
      * assert (b1 = b2) as -> by congruence. lia.
  - split; [apply initial_fresh|]. split; [|split].
    + intros t side k o Hat. apply order_at_spec in Hat as (book & Hbook & Hk).
      apply initial_books in Hbook as ->. by apply emptyBook_slots in Hk.
    + intros t1 side1 k1 o1 t2 side2 k2 o2 Hat.
      apply order_at_spec in Hat as (book & Hbook & Hk).
      apply initial_books in Hbook as ->. by apply emptyBook_slots in Hk.
    + intros t side k1 k2 o1 o2 _ Hat.
      apply order_at_spec in Hat as (book & Hbook & Hk).
      apply initial_books in Hbook as ->. by apply emptyBook_slots in Hk.
  - destruct HQ as (_ & HT & HU & HS). simpl in Hg. rewrite Z.add_0_l in Hg.
    done.
Qed.

(** X17. Sequence numbers: in every engine reached from the empty engine
    by at most 2^32 calls of [addOrder], every stored order carries a time
    stamp below the number of calls made, no two stored orders anywhere in
    the engine carry the same time stamp, and along each side of a book
    the time stamps increase with the slot index. *)
Theorem reachable_sequence_numbers_unique ops s out :
  run ops initial = Ok (s, out) ->
  Z.of_nat (submissions ops) <= 2 ^ 32 ->
  (forall t side k o, order_at s t side k = Some o ->
     0 <= timestamp o < Z.of_nat (submissions ops)) /\
  (forall t1 side1 k1 o1 t2 side2 k2 o2,
     order_at s t1 side1 k1 = Some o1 -> order_at s t2 side2 k2 = Some o2 ->
     timestamp o1 = timestamp o2 -> t1 = t2 /\ side1 = side2 /\ k1 = k2) /\
  (forall t side k1 k2 o1 o2,
     (k1 < k2)%nat ->
     order_at s t side k1 = Some o1 -> order_at s t side k2 = Some o2 ->
     timestamp o1 < timestamp o2).
Proof.
  intros H Hn. destruct (reachable_timestamps _ _ _ H Hn) as (Hg & HT & HU & HS).
  rewrite Hg in HT. done.
Qed.

Lemma reachable_sequence_numbers_unique_witness :
  (forall t side k o, order_at scenarioC_end t side k = Some o ->
     0 <= timestamp o < Z.of_nat (submissions scenarioC_run)) /\
  (forall t1 side1 k1 o1 t2 side2 k2 o2,
     order_at scenarioC_end t1 side1 k1 = Some o1 ->
     order_at scenarioC_end t2 side2 k2 = Some o2 ->
     timestamp o1 = timestamp o2 -> t1 = t2 /\ side1 = side2 /\ k1 = k2) /\
  (forall t side k1 k2 o1 o2,
     (k1 < k2)%nat ->
     order_at scenarioC_end t side k1 = Some o1 ->
     order_at scenarioC_end t side k2 = Some o2 ->
     timestamp o1 < timestamp o2).
Proof.
  apply (reachable_sequence_numbers_unique scenarioC_run scenarioC_end
           (outcome (initial, []) (run scenarioC_run initial)).2).
  - reflexivity.
  - simpl. lia.
Defined.

(** ** The inputs of the simulation *)

Lemma run_snoc ops op :
  forall s s1 out1 s2 out2,
    run ops s = Ok (s1, out1) -> step op s1 = Ok (s2, out2) ->
    run (ops ++ [op]) s = Ok (s2, out1 ++ out2).
Proof.
  induction ops as [|o ops IH]; intros s s1 out1 s2 out2 H Hstep; simpl in *.
  - simplify_eq. rewrite Hstep. simpl. by rewrite app_nil_r.
  - destruct (step o s) as [[sa outa]| |] eqn:Ha; simpl in H; try done.
    destruct (run ops sa) as [[sb outb]| |] eqn:Hb; simpl in H; try done.
    simplify_eq. simpl. rewrite (IH _ _ _ _ _ Hb Hstep). simpl.
    by rewrite app_assoc.
Qed.

Lemma submissions_snoc_pass ops fuel t :
  submissions (ops ++ [MatchPass fuel t]) = submissions ops.
Proof.
  induction ops as [|[b t0 q p|f t0] ops IH]; simpl; congruence.
Qed.

Lemma run_invariant_ops (ok : Op -> Prop) (Q : Engine -> Prop) :
  (forall op s s' out, ok op -> Q s -> step op s = Ok (s', out) -> Q s') ->
  forall ops s s' out,
    Forall ok ops -> Q s -> run ops s = Ok (s', out) -> Q s'.
Proof.
  intros Hstep. induction ops as [|op ops IH]; intros s s' out Hok HQ H;
    simpl in H.
  - by simplify_eq.
  - destruct (step op s) as [[s1 out1]| |] eqn:H1; simpl in H; try done.
    destruct (run ops s1) as [[s2 out2]| |] eqn:H2; simpl in H; try done.
    simplify_eq. apply Forall_cons in Hok as [Hop Hok]. eauto.
Qed.

(** Stored prices stay in the range the simulation draws them from. *)
Lemma reachable_prices ops s out :
  Forall simulated ops ->
  run ops initial = Ok (s, out) ->
  forall t side k o, order_at s t side k = Some o ->
    SFleb (double_of_Z 10) (price o) = true /\
    SFleb (price o) (double_of_Z 500) = true.
Proof.
  intros Hsim.
  apply (run_invariant_ops simulated
           (fun s => forall t side k o, order_at s t side k = Some o ->
              SFleb (double_of_Z 10) (price o) = true /\
              SFleb (price o) (double_of_Z 500) = true)); [|done|].
  - intros op s0 s1 out1 Hop HQ Hstep t side k o' Hat.
    destruct (step_order_origin _ _ _ _ _ _ _ _ Hstep Hat)
      as [(o & Ho & ->)|(q & p & book & -> & _ & _ & _ & _ & ->)].
    + by apply (HQ t side k o).
    + simpl in Hop. simpl. tauto.
  - intros t side k o Hat. apply order_at_spec in Hat as (book & Hbook & Hk).
    apply initial_books in Hbook as ->. by apply emptyBook_slots in Hk.
Qed.

(** X18. With the inputs the simulation draws (tickers 0..1023, quantities
    1..1000, prices from 10.0 to 500.0) and fewer than 2^31 submissions,
    the no-cross property holds in full: whenever a pass on a ticker
    returns, no eligible buy and eligible sell of that ticker's book have
    buy price >= sell price. *)
Theorem simulated_pass_leaves_no_cross ops s out fuel t s' trades book' :
  Forall simulated ops ->
  Z.of_nat (submissions ops) < 2 ^ 31 ->
  run ops initial = Ok (s, out) ->
  matchOrdersForTicker fuel t s = Ok (s', trades) ->
  tickers s' !! Z.to_nat t = Some book' ->
  forall i j b sl,
    eligible (buyOrders book') i b -> eligible (sellOrders book') j sl ->
    SFleb (price sl) (price b) = false.
Proof.
  intros Hsim Hn Hrun Hpass Hbook' i j b sl [Hb Hbq] [Hs Hsq].
  assert (Hrun' : run (ops ++ [MatchPass fuel t]) initial = Ok (s', out ++ trades))
    by (by eapply run_snoc).
  assert (Hsim' : Forall simulated (ops ++ [MatchPass fuel t])).
  { apply Forall_app. split; [done|]. by repeat constructor. }
  assert (Hn' : Z.of_nat (submissions (ops ++ [MatchPass fuel t])) < 2 ^ 31)
    by (by rewrite submissions_snoc_pass).
  destruct (reachable_counters _ _ _ Hrun' Hn') as [_ Hcount].
  destruct (Hcount _ _ Hbook') as [[Lb Ls] Hside].
  destruct (Hside true) as [_ Hpb]. destruct (Hside false) as [_ Hps].
  simpl in Hpb, Hps.
  assert (Hi : Z.of_nat i < buyCount book').
  { apply (Hpb i); [by eapply lookup_lt_Some|eauto]. }
  assert (Hj : Z.of_nat j < sellCount book').
  { apply (Hps j); [by eapply lookup_lt_Some|eauto]. }
  destruct (reachable_prices _ _ _ Hsim' Hrun' (Z.to_nat t) true i b)
    as [Hb10 _]; [apply order_at_spec; eauto|].
  destruct (reachable_prices _ _ _ Hsim' Hrun' (Z.to_nat t) false j sl)
    as [_ Hs500]; [apply order_at_spec; eauto|].
  apply (step_cases (MatchPass fuel t)) in Hpass
    as [(? & ? & ? & ? & ? & _)
       |[(? & ? & ? & ? & ? & ? & ? & _)
        |(f & t0 & book & book1 & [= <- <-] & Ht & Hbook & Hloop & ->)]];
    try done.
  simpl in Hbook'.
  rewrite list_lookup_insert_eq in Hbook' by (by eapply lookup_lt_Some).
  simplify_eq.
  apply (no_cross_within_sentinels _ _ _ _ _ Hloop i j b sl);
    [lia|lia|done|done| |].
  - apply (SFltb_leb_trans _ (double_of_Z 10)); [vm_compute; reflexivity|done].
  - apply (SFleb_ltb_trans _ (double_of_Z 500)); [done|vm_compute; reflexivity].
Qed.

Lemma simulated_pass_leaves_no_cross_witness :
  SFleb (price (mkOrder false 2 80 (double_of_Z 20) 1))
        (price (mkOrder true 2 50 (double_of_Z 10) 0)) = false.
Proof.
  apply (simulated_pass_leaves_no_cross scenarioB_run scenarioB_engine []
           1 2 scenarioB_engine [] scenarioB_book) with (i := 0%nat) (j := 0%nat).
  - repeat constructor; try (simpl; lia); vm_compute; reflexivity.
  - simpl. lia.
  - reflexivity.
  - reflexivity.
  - reflexivity.
  - split; [reflexivity|simpl; lia].
  - split; [reflexivity|simpl; lia].
Defined.

(** ** Within the capacity nothing leaves the arrays *)

Lemma matchLoop_in_bounds tickerIndex fuel :
  forall book,
    in_bounds book = true ->
    matchLoop fuel tickerIndex book = OutOfFuel \/
    exists r, matchLoop fuel tickerIndex book = Ok r.
Proof.
  induction fuel as [|fuel IH]; intros book Hin; simpl; [by left|].
  destruct (matchIteration_ok tickerIndex book Hin) as [[[book1 tr]|] Hit];
    rewrite Hit; simpl; [|eauto].
  destruct (matchIteration_decreases _ _ _ _ Hit) as (_ & Hin1 & _).
  destruct (IH book1) as [->|[r ->]]; [congruence|by left|simpl; eauto].
Qed.

Lemma counted_in_bounds s t book :
  counted s -> globalTimestamp s <= 1024 ->
  tickers s !! t = Some book -> in_bounds book = true.
Proof.
  intros HQ Hg Hbook. destruct (HQ _ _ Hbook) as [[Lb Ls] Hside].
  destruct (Hside true) as [Hb _]. destruct (Hside false) as [Hs _].
  simpl in Hb, Hs. unfold in_bounds. rewrite Lb, Ls.
  apply andb_true_intro. split; apply Z.leb_le;
    unfold MAX_ORDERS_PER_SIDE; lia.
Qed.

Lemma step_in_bounds op s :
  counted s -> length (tickers s) = Z.to_nat NUM_TICKERS ->
  0 <= globalTimestamp s ->
  globalTimestamp s + Z.of_nat (submissions [op]) <= 1024 ->
  in_range op ->
  step op s = OutOfFuel \/ exists r, step op s = Ok r.
Proof.
  intros HQ Hlen Hg0 Hb Hop. unfold NUM_TICKERS in *.
  destruct op as [b t q p|fuel t]; simpl in *.
  - right. destruct (decide (NUM_TICKERS <= t)) as [Hge|Hlt].
    + rewrite addOrder_rejected by done. simpl. eauto.
    + unfold NUM_TICKERS in Hlt.
      destruct (lookup_lt_is_Some_2 (tickers s) (Z.to_nat t)) as [book Hbook];
        [lia|].
      rewrite (addOrder_accepted b t q p s book) by (unfold NUM_TICKERS; done || lia).
      destruct (HQ _ _ Hbook) as [[Lb Ls] Hside].
      destruct (Hside b) as [Hc _].
      assert (Hl : length (side_orders b book) = 1024%nat) by (by destruct b).
      rewrite addOrderBook_side. unfold MAX_ORDERS_PER_SIDE, array_set.
      destruct (Z.ltb_spec (side_count b book) 1024); [|lia].
      destruct (Z.leb_spec 0 (side_count b book)); [|lia].
      destruct (Z.ltb_spec (side_count b book)
                  (Z.of_nat (length (side_orders b book)))); [|lia].
      simpl. eauto.
  - unfold matchOrdersForTicker, array_get.
    destruct (Z.leb_spec 0 t); [|lia].
    destruct (lookup_lt_is_Some_2 (tickers s) (Z.to_nat t)) as [book Hbook];
      [unfold NUM_TICKERS in *; lia|].
    rewrite Hbook. simpl.
    destruct (matchLoop_in_bounds t fuel book) as [->|[r ->]];
      [eapply counted_in_bounds; [done|lia|done]|by left|simpl; eauto].
Qed.

Lemma run_in_bounds ops :
  forall s,
    counted s -> length (tickers s) = Z.to_nat NUM_TICKERS ->
    0 <= globalTimestamp s ->
    globalTimestamp s + Z.of_nat (submissions ops) <= 1024 ->
    Forall in_range ops ->
    run ops s = OutOfFuel \/ exists r, run ops s = Ok r.
Proof.
  induction ops as [|op ops IH]; intros s HQ Hlen Hg0 Hb Hok; simpl.
  - eauto.
  - apply Forall_cons in Hok as [Hop Hok].
    assert (Hb1 : globalTimestamp s + Z.of_nat (submissions [op]) <= 1024)
      by (destruct op; simpl in *; lia).
    destruct (step_in_bounds op s HQ Hlen Hg0 Hb1 Hop) as [->|[[s1 out1] Hstep]];
      [by left|].
    rewrite Hstep. simpl.
    assert (Hg1 : globalTimestamp s1 =
                  globalTimestamp s + Z.of_nat (submissions [op])).
    { rewrite (step_timestamp _ _ _ _ Hstep). destruct op; simpl in *; [|lia].
      unfold wrap_uint64. rewrite Z.mod_small; lia. }
    destruct (IH s1) as [->|[r ->]]; simpl; eauto.
    + eapply counted_step; [done|done| |done]. lia.
    + by rewrite (step_length _ _ _ _ Hstep).
    + lia.
    + rewrite Hg1. destruct op; simpl in *; lia.
Qed.

(** X19. Within the capacity nothing leaves the arrays: a run from the
    empty engine with at most 1024 calls of [addOrder] (any tickers, any
    sides) and passes on tickers of the exchange never indexes outside an
    array; it returns, unless a pass is given too little fuel. *)
Theorem run_within_capacity_in_bounds ops :
  Forall in_range ops ->
  Z.of_nat (submissions ops) <= 1024 ->
  run ops initial = OutOfFuel \/ exists r, run ops initial = Ok r.
Proof.
  intros Hok Hn.
  apply run_in_bounds; first [apply counted_initial | done | simpl; lia].
Qed.

Lemma run_within_capacity_in_bounds_witness :
  run scenarioC_run initial = OutOfFuel \/
  exists r, run scenarioC_run initial = Ok r.
Proof.
  apply (run_within_capacity_in_bounds scenarioC_run).
  - repeat constructor; simpl; unfold NUM_TICKERS; lia.
  - simpl. lia.
Defined.

(** ** matchOrder *)

Lemma matchOrderFrom_inv n :
  forall ticker fuel s s' trades,
    0 <= ticker ->
    matchOrderFrom n ticker fuel s = Ok (s', trades) ->
    globalTimestamp s' = globalTimestamp s /\
    length (tickers s') = length (tickers s) /\
    (forall k, (k < Z.to_nat ticker \/ Z.to_nat ticker + n <= k)%nat ->
       tickers s' !! k = tickers s !! k) /\
    (forall k, (Z.to_nat ticker <= k < Z.to_nat ticker + n)%nat ->
       exists book book' tr,
         tickers s !! k = Some book /\ tickers s' !! k = Some book' /\
         matchLoop fuel (Z.of_nat k) book = Ok (book', tr)).
Proof.
  induction n as [|n IH]; intros ticker fuel s s' trades Ht H; simpl in H.
  - simplify_eq. repeat split; try done. intros k Hk. lia.
  - destruct (matchOrdersForTicker fuel ticker s) as [[s1 tr1]| |] eqn:Hpass;
      simpl in H; try done.
    destruct (matchOrderFrom n (ticker + 1) fuel s1) as [[s2 tr2]| |] eqn:Hrest;
      simpl in H; try done.
    simplify_eq.
    apply IH in Hrest as (Hg & Hlen & Hout & Hin); [|lia].
    apply (step_cases (MatchPass fuel ticker)) in Hpass
      as [(? & ? & ? & ? & ? & _)
         |[(? & ? & ? & ? & ? & ? & ? & _)
          |(f & t0 & book & book' & [= <- <-] & _ & Hbook & Hloop & ->)]];
      try done.
    simpl in *. rewrite length_insert in Hlen.
    replace (Z.to_nat (ticker + 1)) with (S (Z.to_nat ticker)) in * by lia.
    repeat split; try done.
    + intros k Hk. rewrite Hout by lia. apply list_lookup_insert_ne. lia.
    + intros k Hk. destruct (decide (k = Z.to_nat ticker)) as [->|Hne].
      * exists book, book', tr1. rewrite Hout by lia.
        rewrite list_lookup_insert_eq by (by eapply lookup_lt_Some).
        rewrite Z2Nat.id by done. done.
      * destruct (Hin k) as (b & b' & tr & Hb & Hb' & Hl); [lia|].
        rewrite list_lookup_insert_ne in Hb by lia. by exists b, b', tr.
Qed.

Lemma matchOrderFrom_returns n :
  forall ticker fuel s,
    0 <= ticker ->
    (Z.to_nat ticker + n <= length (tickers s))%nat ->
    (forall k book, (Z.to_nat ticker <= k)%nat -> tickers s !! k = Some book ->
       in_bounds book = true /\ (eligibleOrders book < fuel)%nat) ->
    exists r, matchOrderFrom n ticker fuel s = Ok r.
Proof.
  induction n as [|n IH]; intros ticker fuel s Ht Hlen Hready; simpl; [eauto|].
  destruct (lookup_lt_is_Some_2 (tickers s) (Z.to_nat ticker)) as [book Hbook];
    [lia|].
  destruct (Hready _ _ (Nat.le_refl _) Hbook) as [Hin Hfuel].
  destruct (matchLoop_terminates ticker (eligibleOrders book) book Hin
              (Nat.le_refl _)) as (book' & tr & _ & Hloop).
  unfold matchOrdersForTicker, array_get.
  destruct (Z.leb_spec 0 ticker); [|lia].
  rewrite Hbook. simpl. rewrite (Hloop fuel Hfuel). simpl.
  destruct (IH (ticker + 1) fuel
              {| globalTimestamp := globalTimestamp s;
                 tickers := <[Z.to_nat ticker := book']> (tickers s) |})
    as [r ->]; simpl; [lia|rewrite length_insert; lia| |eauto].
  intros k b Hk Hb. rewrite list_lookup_insert_ne in Hb by lia.
  apply (Hready k b); [lia|done].
Qed.

Lemma matchOrderFrom_silent n fuel :
  forall ticker s,
    0 <= ticker ->
    (forall k, (Z.to_nat ticker <= k < Z.to_nat ticker + n)%nat ->
       exists book, tickers s !! k = Some book /\
                    matchIteration (Z.of_nat k) book = Ok None) ->
    matchOrderFrom n ticker (S fuel) s = Ok (s, []).
Proof.
  induction n as [|n IH]; intros ticker s Ht Hfix; [done|].
  destruct (Hfix (Z.to_nat ticker)) as (book & Hbook & Hexit); [lia|].
  rewrite Z2Nat.id in Hexit by done.
  assert (Hpass : matchOrdersForTicker (S fuel) ticker s = Ok (s, [])).
  { unfold matchOrdersForTicker, array_get.
    destruct (Z.leb_spec 0 ticker); [|lia].
    rewrite Hbook. simpl. rewrite Hexit. simpl.
    rewrite list_insert_id by done. by destruct s. }
  change (matchOrderFrom (S n) ticker (S fuel) s) with
    (let* x := matchOrdersForTicker (S fuel) ticker s in
     let* y := matchOrderFrom n (ticker + 1) (S fuel) (fst x) in
     Ok (fst y, snd x ++ snd y)).
  rewrite Hpass. simpl.
  rewrite IH; [done|lia|]. intros k Hk. apply Hfix. lia.
Qed.

Lemma sweep_ready_spec fuel s k book :
  sweep_ready fuel s = true -> tickers s !! k = Some book ->
  in_bounds book = true /\ (eligibleOrders book < fuel)%nat.
Proof.
  intros Hready Hbook.
  apply (forallb_lookup _ _ _ _ Hready) in Hbook.
  apply andb_prop in Hbook as [Hin Hfuel].
  by apply Nat.ltb_lt in Hfuel.
Qed.

Lemma matchOrder_returns fuel s :
  length (tickers s) = Z.to_nat NUM_TICKERS ->
  sweep_ready fuel s = true ->
  exists r, matchOrder fuel s = Ok r.
Proof.
  intros Hlen Hready. unfold matchOrder.
  apply matchOrderFrom_returns; [done|simpl; lia|].
  intros k book _. by apply sweep_ready_spec.
Qed.

(** X20. [matchOrder] sweeps every ticker: on an engine of 1024 books whose
    counters are within the arrays, and with more fuel than any book has
    orders that can still trade, the sweep returns; it leaves the time
    stamp counter and the number of books as they are, every book is
    replaced by the result of the pass on that book alone, and no book is
    left with another iteration to make. *)
Theorem matchOrder_sweeps_every_ticker fuel s :
  length (tickers s) = Z.to_nat NUM_TICKERS ->
  sweep_ready fuel s = true ->
  exists s' trades,
    matchOrder fuel s = Ok (s', trades) /\
    globalTimestamp s' = globalTimestamp s /\
    length (tickers s') = Z.to_nat NUM_TICKERS /\
    forall k book,
      tickers s !! k = Some book ->
      exists book' tr,
        tickers s' !! k = Some book' /\
        matchLoop fuel (Z.of_nat k) book = Ok (book', tr) /\
        matchIteration (Z.of_nat k) book' = Ok None.
Proof.
  intros Hlen Hready.
  destruct (matchOrder_returns fuel s Hlen Hready) as [[s' trades] Hrun].
  exists s', trades. split; [done|]. unfold matchOrder in Hrun.
  apply matchOrderFrom_inv in Hrun as (Hg & Hl & _ & Hin); [|done].
  split; [done|]. split; [congruence|].
  intros k book Hbook.
  destruct (Hin k) as (b & b' & tr & Hb & Hb' & Hloop).
  { apply lookup_lt_Some in Hbook. simpl. lia. }
  simplify_eq. exists b', tr. split; [done|]. split; [done|].
  by eapply matchLoop_exit.
Qed.

Lemma matchOrder_sweeps_every_ticker_witness :
  exists s' trades,
    matchOrder 4 scenarioC_engine = Ok (s', trades) /\
    globalTimestamp s' = globalTimestamp scenarioC_engine /\
    length (tickers s') = Z.to_nat NUM_TICKERS /\
    forall k book,
      tickers scenarioC_engine !! k = Some book ->
      exists book' tr,
        tickers s' !! k = Some book' /\
        matchLoop 4 (Z.of_nat k) book = Ok (book', tr) /\
        matchIteration (Z.of_nat k) book' = Ok None.
Proof.
  apply (matchOrder_sweeps_every_ticker 4 scenarioC_engine).
  - reflexivity.
  - vm_compute. reflexivity.
Defined.

(** X21. A sweep runs to a fixed point: right after [matchOrder] has
    returned, another sweep, with any fuel, prints no trade and leaves the
    engine exactly as it is. *)
Theorem second_sweep_is_silent fuel fuel' s s' trades :
  matchOrder fuel s = Ok (s', trades) ->
  matchOrder (S fuel') s' = Ok (s', []).
Proof.
  unfold matchOrder. intros Hrun.
  apply matchOrderFrom_inv in Hrun as (_ & _ & _ & Hin); [|done].
  apply matchOrderFrom_silent; [done|].
  intros k Hk. destruct (Hin k Hk) as (b & b' & tr & _ & Hb' & Hloop).
  exists b'. split; [done|]. by eapply matchLoop_exit.
Qed.

Lemma second_sweep_is_silent_witness :
  matchOrder 1 scenarioC_swept = Ok (scenarioC_swept, []).
Proof.
  unfold scenarioC_swept.
  destruct (matchOrder_returns 4 scenarioC_engine) as [[s' trades] Hsweep].
  - reflexivity.
  - vm_compute. reflexivity.
  - rewrite Hsweep.
    exact (second_sweep_is_silent 4 0 scenarioC_engine s' trades Hsweep).
Defined.
